(** * netlify-plugin-sitemap-ping: the [onSuccess] hook of [src/index.js]

    The hook resolves the site URL, checks that a sitemap exists in the
    build output (with three fallback paths), and then sends one GET to
    each of three search-engine ping endpoints, logging one line per
    target.

    The development has three layers:
    - [JS]: the parts of the JavaScript language and of its standard
      library the hook uses (strings as UTF-16 code units, truthiness,
      [String.prototype.replace] with the pattern [/\/$/],
      [encodeURIComponent], number to string);
    - a small monad for the hook's effects: [fs.existsSync],
      [https.get] through [httpGet], [console.log], exceptions and
      [try]/[catch];
    - the hook itself, statement by statement.

    The monad [M] describes the runs in which the promise of every
    request settles. [Callbacks] is [httpGet] from the inside, where a
    promise can stay pending, and [Async] is the hook over it: a run
    returns, throws, or waits for good at an [await]. The two agree when
    every promise settles ([async_agrees_when_promises_settle]). *)

From Stdlib Require Import List Arith NArith Bool Ascii String Lia.
From Stdlib Require Import DecimalString.
Import ListNotations.

Local Open Scope N_scope.

(* ===================================================================== *)
(** * JavaScript values used by the hook *)
(* ===================================================================== *)

Module JS.

(** A JavaScript string is a sequence of UTF-16 code units. *)
Definition jsstring := list N.

(** An ASCII literal of the source, as code units. *)
Definition lit (s : string) : jsstring :=
  map N_of_ascii (list_ascii_of_string s).

(** [undefined] or a string: the type of [inputs.siteUrl],
    [inputs.sitemapPath] and [process.env.URL]. *)
Definition optstr := option jsstring.

(** ToBoolean: [undefined] and the empty string are falsy. *)
Definition truthy (v : optstr) : bool :=
  match v with
  | None => false
  | Some [] => false
  | Some (_ :: _) => true
  end.

(** [a || b]: [a] when it is truthy, else [b]. *)
Definition or_else (a b : optstr) : optstr :=
  if truthy a then a else b.

(** [a || "literal"]: the result is a string. *)
Definition or_lit (a : optstr) (d : jsstring) : jsstring :=
  match a with
  | Some (c :: s) => c :: s
  | _ => d
  end.

Definition slash : N := 47.

(** [s.replace(/\/$/, "")]: without the [m] flag [$] matches at the end
    of the input only, so the pattern matches the last code unit when it
    is a slash, and nothing else. One match is replaced. *)
Fixpoint replace_trailing_slash (s : jsstring) : jsstring :=
  match s with
  | [] => []
  | [c] => if c =? slash then [] else [c]
  | c :: (_ :: _) as rest => c :: replace_trailing_slash rest
  end.

(** ** [encodeURIComponent] (ECMA-262, Encode) *)

(** The unescaped set: ASCII letters, digits, and [-_.!~*'()]. *)
Definition unescaped (c : N) : bool :=
  ((65 <=? c) && (c <=? 90)) || ((97 <=? c) && (c <=? 122)) ||
  ((48 <=? c) && (c <=? 57)) ||
  existsb (N.eqb c) [45; 95; 46; 33; 126; 42; 39; 40; 41].

Definition is_leading_surrogate (c : N) : bool :=
  (0xD800 <=? c) && (c <=? 0xDBFF).

Definition is_trailing_surrogate (c : N) : bool :=
  (0xDC00 <=? c) && (c <=? 0xDFFF).

(** UTF16SurrogatePairToCodePoint. *)
Definition surrogate_pair (lead trail : N) : N :=
  (lead - 0xD800) * 0x400 + (trail - 0xDC00) + 0x10000.

(** The UTF-8 octets of a code point. *)
Definition utf8 (cp : N) : list N :=
  if cp <? 0x80 then [cp]
  else if cp <? 0x800 then
    [0xC0 + cp / 0x40; 0x80 + cp mod 0x40]
  else if cp <? 0x10000 then
    [0xE0 + cp / 0x1000; 0x80 + (cp / 0x40) mod 0x40; 0x80 + cp mod 0x40]
  else
    [0xF0 + cp / 0x40000; 0x80 + (cp / 0x1000) mod 0x40;
     0x80 + (cp / 0x40) mod 0x40; 0x80 + cp mod 0x40].

(** An upper-case hexadecimal digit. *)
Definition hex_digit (d : N) : N :=
  if d <? 10 then 48 + d else 55 + d.

(** ["%XX"] for one octet. *)
Definition percent (octet : N) : jsstring :=
  [37; hex_digit (octet / 16); hex_digit (octet mod 16)].

Definition percent_all (octets : list N) : jsstring :=
  flat_map percent octets.

(** A thrown JavaScript error; the hook only reads [err.message]. *)
Record Error := { message : jsstring }.

Definition URIError : Error := {| message := lit "URI malformed" |}.

(** [encodeURIComponent(s)]: unescaped units are copied, any other code
    point is written as the percent-escapes of its UTF-8 octets, and an
    unpaired surrogate raises [URIError]. *)
Fixpoint encodeURIComponent (s : jsstring) : Error + jsstring :=
  match s with
  | [] => inr []
  | c :: rest =>
      if unescaped c then
        match encodeURIComponent rest with
        | inr r => inr (c :: r)
        | inl e => inl e
        end
      else if is_leading_surrogate c then
        match rest with
        | d :: rest' =>
            if is_trailing_surrogate d then
              match encodeURIComponent rest' with
              | inr r => inr (percent_all (utf8 (surrogate_pair c d)) ++ r)
              | inl e => inl e
              end
            else inl URIError
        | [] => inl URIError
        end
      else if is_trailing_surrogate c then inl URIError
      else
        match encodeURIComponent rest with
        | inr r => inr (percent_all (utf8 c) ++ r)
        | inl e => inl e
        end
  end.

(** [`${n}`] for a non-negative integer [n]: its decimal digits. *)
Definition number_to_string (n : N) : jsstring :=
  lit (NilZero.string_of_uint (N.to_uint n)).

End JS.

Import JS.

(* ===================================================================== *)
(** * The world the hook runs in, and its effects *)
(* ===================================================================== *)

(** What [httpGet] resolves with: [{ status: res.statusCode, body: data }]. *)
Record Response := { status : N; body : jsstring }.

(** A settled promise of [httpGet]: resolved at the response's [end]
    event, or rejected with the request's [error]. A promise that never
    settles is not a value of this type: the monad [M] below describes
    the runs in which every promise of [httpGet] settles, and [Async],
    further down, the runs in which a promise may stay pending. *)
Inductive Settled :=
| Fulfilled (res : Response)
| Rejected (err : Error).

(** What a run does to its surroundings, in order. *)
Inductive Event :=
| Probe (path : jsstring)     (* fs.existsSync(path) *)
| Get (url : jsstring)        (* https.get(url, ...) *)
| Print (line : jsstring).    (* console.log(line) *)

(** [disk]: which paths exist; [wire k url]: how the [k]-th request of
    the process settles when it is sent to [url]; [env_URL]:
    [process.env.URL]; [trace]: the events so far, oldest first. *)
Record World := {
  disk : jsstring -> bool;
  wire : nat -> jsstring -> Settled;
  env_URL : optstr;
  trace : list Event
}.

Definition extend (w : World) (evs : list Event) : World :=
  {| disk := disk w; wire := wire w; env_URL := env_URL w;
     trace := trace w ++ evs |}.

Fixpoint requests (tr : list Event) : list jsstring :=
  match tr with
  | [] => []
  | Get u :: tr' => u :: requests tr'
  | _ :: tr' => requests tr'
  end.

(** The number of requests sent so far. *)
Definition sent (w : World) : nat := List.length (requests (trace w)).

Fixpoint probes (tr : list Event) : list jsstring :=
  match tr with
  | [] => []
  | Probe p :: tr' => p :: probes tr'
  | _ :: tr' => probes tr'
  end.

Fixpoint prints (tr : list Event) : list jsstring :=
  match tr with
  | [] => []
  | Print l :: tr' => l :: prints tr'
  | _ :: tr' => prints tr'
  end.

(** A computation either throws or returns, and leaves a world. *)
Definition M (A : Type) : Type := World -> (Error + A) * World.

Definition ret {A} (a : A) : M A := fun w => (inr a, w).

Definition bind {A B} (m : M A) (k : A -> M B) : M B :=
  fun w =>
    match m w with
    | (inr a, w') => k a w'
    | (inl e, w') => (inl e, w')
    end.

Definition throw {A} (e : Error) : M A := fun w => (inl e, w).

(** [try { m } catch (err) { h err }]. *)
Definition try_catch {A} (m : M A) (h : Error -> M A) : M A :=
  fun w =>
    match m w with
    | (inl e, w') => h e w'
    | (inr a, w') => (inr a, w')
    end.

Declare Scope hook_scope.
Delimit Scope hook_scope with hook.
Notation "x <- m ;; k" := (bind m (fun x => k))
  (at level 61, m at next level, right associativity) : hook_scope.
Notation "m ;; k" := (bind m (fun _ => k))
  (at level 61, right associativity) : hook_scope.
Local Open Scope hook_scope.

(** The value of an expression that may throw. *)
Definition eval {A} (r : Error + A) : M A := fun w => (r, w).

Definition emit (e : Event) : M unit := fun w => (inr tt, extend w [e]).

Definition console_log (line : jsstring) : M unit := emit (Print line).

Definition existsSync (path : jsstring) : M bool :=
  fun w => (inr (disk w path), extend w [Probe path]).

Definition process_env_URL : M optstr := fun w => (inr (env_URL w), w).

(** [httpGet(url)] followed to the point where its promise has
    settled: the request goes out, and the promise settles as the
    network decides for this request. [Async.httpGet] is the call
    without that assumption. *)
Definition httpGet (url : jsstring) : M Settled :=
  fun w => (inr (wire w (sent w) url), extend w [Get url]).

(** [await p]: the value of a fulfilled promise; a rejected one throws. *)
Definition await (p : Settled) : M Response :=
  match p with
  | Fulfilled res => ret res
  | Rejected err => throw err
  end.

(** [for (const x of xs) body]. *)
Fixpoint for_of {T} (xs : list T) (body : T -> M unit) : M unit :=
  match xs with
  | [] => ret tt
  | x :: rest => body x ;; for_of rest body
  end.

(* ===================================================================== *)
(** * The hook *)
(* ===================================================================== *)

Record Inputs := { siteUrl : optstr; sitemapPath : optstr }.
Record Constants := { PUBLISH_DIR : jsstring }.

(** The hook's argument [{ constants, inputs, utils }]; [utils] is not
    used. *)
Record Args := { constants : Constants; inputs : Inputs }.

Record Target := { name : jsstring; url : jsstring }.

(** The non-ASCII characters of the source's string literals. *)
Definition warning_sign : jsstring := [0x26A0; 0xFE0F].   (* U+26A0 U+FE0F *)
Definition antenna : jsstring := [0xD83D; 0xDCE1].        (* U+1F4E1 *)
Definition em_dash : jsstring := [0x2014].
Definition check_mark : jsstring := [0x2705].
Definition cross_mark : jsstring := [0x274C].
Definition nl : jsstring := [10].

Definition no_site_url_warning : jsstring :=
  warning_sign ++
  lit "  Sitemap Ping: No site URL found. Set siteUrl in plugin inputs or ensure URL env var is set.".

Definition no_sitemap_warning (sitemapPath : jsstring) : jsstring :=
  warning_sign ++ lit "  Sitemap Ping: No sitemap found at " ++ sitemapPath ++
  lit ". Skipping.".

Definition fallback_notice (sitemapPath found : jsstring) : jsstring :=
  lit "   Sitemap not at " ++ sitemapPath ++ lit ", using " ++ found ++
  lit " instead.".

Definition banner : jsstring :=
  nl ++ antenna ++ lit " Sitemap Ping " ++ em_dash ++
  lit " notifying search engines..." ++ nl.

Definition sitemap_line (sitemapUrl : jsstring) : jsstring :=
  lit "   Sitemap: " ++ sitemapUrl ++ nl.

Definition done_line : jsstring :=
  nl ++ lit "   Done " ++ em_dash ++ lit " search engines notified." ++ nl.

Definition alternatives : list jsstring :=
  [lit "/sitemap.xml"; lit "/sitemap-index.xml"; lit "/sitemap-0.xml"].

Definition google_ping : jsstring := lit "https://www.google.com/ping?sitemap=".
Definition bing_ping : jsstring := lit "https://www.bing.com/ping?sitemap=".
Definition yandex_ping : jsstring := lit "https://yandex.com/ping?sitemap=".

(** The array literal [targets]: its three template literals are
    evaluated in order, each calling [encodeURIComponent]. *)
Definition targets (sitemapUrl : jsstring) : M (list Target) :=
  g <- eval (encodeURIComponent sitemapUrl) ;;
  b <- eval (encodeURIComponent sitemapUrl) ;;
  y <- eval (encodeURIComponent sitemapUrl) ;;
  ret [ {| name := lit "Google"; url := google_ping ++ g |};
        {| name := lit "Bing (IndexNow)"; url := bing_ping ++ b |};
        {| name := lit "Yandex"; url := yandex_ping ++ y |} ].

(** The body of the loop over [targets]. *)
Definition ping (target : Target) : M unit :=
  try_catch
    (p <- httpGet (url target) ;;
     res <- await p ;;
     let status :=
       if status res <? 300 then check_mark
       else warning_sign ++ lit "  " ++ number_to_string (status res) in
     console_log (lit "   " ++ status ++ lit " " ++ name target))
    (fun err =>
       console_log (lit "   " ++ cross_mark ++ lit " " ++ name target ++
                    lit ": " ++ message err)).

(** From the banner to the end of the hook. *)
Definition notify (sitemapUrl : jsstring) : M unit :=
  console_log banner ;;
  console_log (sitemap_line sitemapUrl) ;;
  targets <- targets sitemapUrl ;;
  for_of targets ping ;;
  console_log done_line.

(** Line 31: [(inputs.siteUrl || process.env.URL || "").replace(/\/$/, "")]. *)
Definition resolve_siteUrl (i : Inputs) (env : optstr) : jsstring :=
  replace_trailing_slash (or_lit (or_else (siteUrl i) env) []).

(** Line 38: [inputs.sitemapPath || "/sitemap-index.xml"]. *)
Definition resolve_sitemapPath (i : Inputs) : jsstring :=
  or_lit (sitemapPath i) (lit "/sitemap-index.xml").

Section Hook.

(** [path.join] of Node's [path] module, for two arguments. The hook is
    verified for any such function. *)
Variable path_join : jsstring -> jsstring -> jsstring.

(** The loop over [alternatives]: [found] is [null] until a path
    exists, and the first one that does ends the loop. *)
Fixpoint find_alternative (publishDir : jsstring) (alts : list jsstring)
  : M optstr :=
  match alts with
  | [] => ret None
  | alt :: rest =>
      hit <- existsSync (path_join publishDir alt) ;;
      if hit then ret (Some alt)
      else find_alternative publishDir rest
  end.

Definition onSuccess (args : Args) : M unit :=
  env <- process_env_URL ;;
  let siteUrl := resolve_siteUrl (inputs args) env in
  if negb (truthy (Some siteUrl)) then
    console_log no_site_url_warning
  else
    let sitemapPath := resolve_sitemapPath (inputs args) in
    let sitemapUrl := siteUrl ++ sitemapPath in
    let publishDir := PUBLISH_DIR (constants args) in
    let localSitemap := path_join publishDir sitemapPath in
    present <- existsSync localSitemap ;;
    if negb present then
      found <- find_alternative publishDir alternatives ;;
      match found with
      | Some (c :: s) =>
          console_log (fallback_notice sitemapPath (c :: s)) ;;
          notify sitemapUrl
      | _ => console_log (no_sitemap_warning sitemapPath)
      end
    else notify sitemapUrl.

End Hook.

(* ===================================================================== *)
(** * Vocabulary of the properties *)
(* ===================================================================== *)

(** The world before the hook's first run in a process. *)
Definition start (d : jsstring -> bool) (net : nat -> jsstring -> Settled)
  (env : optstr) : World :=
  {| disk := d; wire := net; env_URL := env; trace := [] |}.

(** [s] ends with the code unit [c]. *)
Definition ends_with (c : N) (s : jsstring) : Prop :=
  exists t, s = t ++ [c].

(** Joining [a] and [b] puts two slashes next to each other. *)
Definition double_slash_at_join (a b : jsstring) : Prop :=
  ends_with slash a /\ exists b', b = slash :: b'.

Fixpoint starts_with (prefix s : jsstring) : bool :=
  match prefix, s with
  | [], _ => true
  | p :: prefix', c :: s' => (p =? c) && starts_with prefix' s'
  | _ :: _, [] => false
  end.

(** [needle] occurs in [s]. *)
Fixpoint occurs (needle s : jsstring) : bool :=
  starts_with needle s ||
  match s with
  | [] => false
  | _ :: s' => occurs needle s'
  end.

(** The paths probed from an ordered list when probing stops at the
    first one that exists. *)
Fixpoint probed_until_hit (present : jsstring -> bool) (paths : list jsstring)
  : list jsstring :=
  match paths with
  | [] => []
  | p :: rest => p :: (if present p then [] else probed_until_hit present rest)
  end.

(** The line the loop body prints for a target whose promise settled as
    [p] (lines 82 to 85). *)
Definition ping_line (target : Target) (p : Settled) : jsstring :=
  match p with
  | Fulfilled res =>
      lit "   " ++
      (if status res <? 300 then check_mark
       else warning_sign ++ lit "  " ++ number_to_string (status res)) ++
      lit " " ++ name target
  | Rejected err =>
      lit "   " ++ cross_mark ++ lit " " ++ name target ++ lit ": " ++
      message err
  end.

(** The events of the loop over [ts] when [k] requests were sent before
    it. *)
Fixpoint ping_events (net : nat -> jsstring -> Settled) (k : nat)
  (ts : list Target) : list Event :=
  match ts with
  | [] => []
  | t :: rest =>
      Get (url t) :: Print (ping_line t (net k (url t))) ::
      ping_events net (S k) rest
  end.

(** The three targets for an encoded sitemap URL [e]. *)
Definition target_list (e : jsstring) : list Target :=
  [ {| name := lit "Google"; url := google_ping ++ e |};
    {| name := lit "Bing (IndexNow)"; url := bing_ping ++ e |};
    {| name := lit "Yandex"; url := yandex_ping ++ e |} ].

(** Two worlds look the same to a computation: same files, same
    environment, and the network answers the requests still to come in
    the same way. *)
Definition alike (w w' : World) : Prop :=
  disk w = disk w' /\ env_URL w = env_URL w' /\
  forall i u, wire w (sent w + i)%nat u = wire w' (sent w' + i)%nat u.

(** A computation is [steady] when it only appends events, and appends
    the same ones, with the same result, in worlds that are alike. *)
Definition steady {A} (m : M A) : Prop :=
  forall w w', alike w w' ->
    exists r evs, m w = (r, extend w evs) /\ m w' = (r, extend w' evs).

(** A [path.join] for the examples: plain concatenation, which is what
    Node's gives for a directory without a trailing slash and a path
    with one leading slash and no dot segments. *)
Definition join_plain (dir p : jsstring) : jsstring := dir ++ p.

(** ** Inputs for the examples *)

Definition answers (n : N) : Settled := Fulfilled {| status := n; body := [] |}.

Definition refused : Settled :=
  Rejected {| message := lit "connect ECONNREFUSED" |}.

(** A network whose first request gets 200, the second 404, and any
    later one is refused. *)
Definition mixed_net (k : nat) (_ : jsstring) : Settled :=
  match k with
  | 0%nat => answers 200
  | 1%nat => answers 404
  | _ => refused
  end.

(** A disk on which exactly the path [p] exists. *)
Definition only_file (p : jsstring) (q : jsstring) : bool :=
  if list_eq_dec N.eq_dec q p then true else false.

Definition dist : jsstring := lit "/opt/build/repo/dist".

Definition args_of (site path : optstr) : Args :=
  {| constants := {| PUBLISH_DIR := dist |};
     inputs := {| siteUrl := site; sitemapPath := path |} |}.

Definition google_x : Target :=
  {| name := lit "Google"; url := google_ping ++ lit "x" |}.

(* ===================================================================== *)
(** * [httpGet] from the inside (lines 17 to 27) *)
(* ===================================================================== *)

Module Callbacks.

(** What Node delivers to the listeners [httpGet] registers, in order:
    the callback of [https.get] is called with the response, the
    response emits ["data"] and ["end"], the request emits ["error"]. A
    chunk is given as the string [data += chunk] appends. *)
Inductive NodeEvent :=
| OnResponse (statusCode : N)
| OnData (chunk : jsstring)
| OnEnd
| OnError (err : Error).

(** The state of one call: [res.statusCode] once the callback has run,
    the variable [data] of the callback, and the promise, [None] while
    it is pending. *)
Record Call := {
  response : option N;
  data : jsstring;
  promise : option Settled
}.

Definition pending : Call :=
  {| response := None; data := []; promise := None |}.

(** [resolve] and [reject] of a promise: only the first call counts. *)
Definition settle (p : option Settled) (s : Settled) : option Settled :=
  match p with
  | None => Some s
  | Some _ => p
  end.

(** One event reaches its listener. The ["data"] and ["end"] listeners
    exist once the callback has run. *)
Definition deliver (c : Call) (ev : NodeEvent) : Call :=
  match ev with
  | OnResponse code =>
      {| response := Some code; data := []; promise := promise c |}
  | OnData chunk =>
      match response c with
      | Some _ =>
          {| response := response c; data := data c ++ chunk;
             promise := promise c |}
      | None => c
      end
  | OnEnd =>
      match response c with
      | Some code =>
          {| response := response c; data := data c;
             promise := settle (promise c)
                          (Fulfilled {| status := code; body := data c |}) |}
      | None => c
      end
  | OnError err =>
      {| response := response c; data := data c;
         promise := settle (promise c) (Rejected err) |}
  end.

(** The promise [httpGet(url)] returns, after Node has delivered
    [evs]. *)
Definition httpGet (evs : list NodeEvent) : option Settled :=
  promise (fold_left deliver evs pending).

(** The event ends the exchange: ["end"] or ["error"]. *)
Definition closes (ev : NodeEvent) : bool :=
  match ev with
  | OnEnd | OnError _ => true
  | _ => false
  end.

End Callbacks.

(* ===================================================================== *)
(** * More vocabulary *)
(* ===================================================================== *)

(** A UTF-16 code unit has sixteen bits. *)
Definition is_code_unit (c : N) : Prop := c < 0x10000.

Definition is_surrogate (c : N) : bool :=
  is_leading_surrogate c || is_trailing_surrogate c.

Definition percent_sign : N := 37.

(** The code units [encodeURIComponent] writes: the unescaped set and
    the percent sign. *)
Definition uri_safe (c : N) : bool := unescaped c || (c =? percent_sign).

(** A property of every code unit of an optional string. *)
Definition all_units (P : N -> Prop) (v : optstr) : Prop :=
  match v with
  | Some s => Forall P s
  | None => True
  end.

(** Two settled promises the hook cannot tell apart: the same status,
    or the same error message. *)
Definition same_reply (p q : Settled) : Prop :=
  match p, q with
  | Fulfilled a, Fulfilled b => status a = status b
  | Rejected e, Rejected f => message e = message f
  | _, _ => False
  end.

(** The world [w] with another [process.env.URL]. *)
Definition with_env (w : World) (env : optstr) : World :=
  {| disk := disk w; wire := wire w; env_URL := env; trace := trace w |}.

(** The world [w] with another network. *)
Definition with_wire (w : World) (net : nat -> jsstring -> Settled) : World :=
  {| disk := disk w; wire := net; env_URL := env_URL w; trace := trace w |}.

(** A network that answers every request with status 200 and the given
    body. *)
Definition net_with_body (b : jsstring) (_ : nat) (_ : jsstring) : Settled :=
  Fulfilled {| status := 200; body := b |}.

(* ===================================================================== *)
(** * The hook when a promise may stay pending *)
(* ===================================================================== *)

Module Async.

(** How a run ends: the hook returns, it throws, or it is suspended for
    good at an [await] whose promise never settles. *)
Inductive Outcome (T : Type) :=
| Returned (value : T)
| Thrown (err : Error)
| Waiting.

Arguments Returned {T} value.
Arguments Thrown {T} err.
Arguments Waiting {T}.

Definition A (T : Type) : Type := World -> Outcome T * World.

Definition ret {T} (a : T) : A T := fun w => (Returned a, w).

Definition throw {T} (e : Error) : A T := fun w => (Thrown e, w).

(** What follows a suspended [await] never runs. *)
Definition bind {T U} (m : A T) (k : T -> A U) : A U :=
  fun w =>
    match m w with
    | (Returned a, w') => k a w'
    | (Thrown e, w') => (Thrown e, w')
    | (Waiting, w') => (Waiting, w')
    end.

(** [try { m } catch (err) { h err }]: a suspended [await] inside [m]
    throws nothing, so [h] does not run. *)
Definition try_catch {T} (m : A T) (h : Error -> A T) : A T :=
  fun w =>
    match m w with
    | (Thrown e, w') => h e w'
    | (Returned a, w') => (Returned a, w')
    | (Waiting, w') => (Waiting, w')
    end.

(** A computation that awaits nothing. *)
Definition lift {T} (m : M T) : A T :=
  fun w =>
    match m w with
    | (inr a, w') => (Returned a, w')
    | (inl e, w') => (Thrown e, w')
    end.

Declare Scope async_scope.
Delimit Scope async_scope with async.
Notation "x <- m ;; k" := (bind m (fun x => k))
  (at level 61, m at next level, right associativity) : async_scope.
Notation "m ;; k" := (bind m (fun _ => k))
  (at level 61, right associativity) : async_scope.
Local Open Scope async_scope.

Section Network.

(** [net k url]: what Node delivers to the listeners of the [k]-th
    request of the process, sent to [url]. The field [wire] of the
    world is not read here. *)
Variable net : nat -> jsstring -> list Callbacks.NodeEvent.

(** [httpGet(url)]: the request goes out; the promise is settled or
    pending as lines 17 to 27 make it from the events. *)
Definition httpGet (url : jsstring) : A (option Settled) :=
  fun w => (Returned (Callbacks.httpGet (net (sent w) url)), extend w [Get url]).

(** [await p]: the value of a fulfilled promise; a rejected one throws;
    a pending one suspends the hook. *)
Definition await (p : option Settled) : A Response :=
  match p with
  | Some (Fulfilled res) => ret res
  | Some (Rejected err) => throw err
  | None => fun w => (Waiting, w)
  end.

Fixpoint for_of {T} (xs : list T) (body : T -> A unit) : A unit :=
  match xs with
  | [] => ret tt
  | x :: rest => body x ;; for_of rest body
  end.

(** The body of the loop over [targets] (lines 80 to 86). *)
Definition ping (target : Target) : A unit :=
  try_catch
    (p <- httpGet (url target) ;;
     res <- await p ;;
     let status :=
       if status res <? 300 then check_mark
       else warning_sign ++ lit "  " ++ number_to_string (status res) in
     lift (console_log (lit "   " ++ status ++ lit " " ++ name target)))
    (fun err =>
       lift (console_log (lit "   " ++ cross_mark ++ lit " " ++ name target ++
                          lit ": " ++ message err))).

(** From the banner to the end of the hook (lines 61 to 89). *)
Definition notify (sitemapUrl : jsstring) : A unit :=
  lift (console_log banner) ;;
  lift (console_log (sitemap_line sitemapUrl)) ;;
  targets <- lift (targets sitemapUrl) ;;
  for_of targets ping ;;
  lift (console_log done_line).

Section Hook.

Variable path_join : jsstring -> jsstring -> jsstring.

Definition onSuccess (args : Args) : A unit :=
  env <- lift process_env_URL ;;
  let siteUrl := resolve_siteUrl (inputs args) env in
  if negb (truthy (Some siteUrl)) then
    lift (console_log no_site_url_warning)
  else
    let sitemapPath := resolve_sitemapPath (inputs args) in
    let sitemapUrl := siteUrl ++ sitemapPath in
    let publishDir := PUBLISH_DIR (constants args) in
    let localSitemap := path_join publishDir sitemapPath in
    present <- lift (existsSync localSitemap) ;;
    if negb present then
      found <- lift (find_alternative path_join publishDir alternatives) ;;
      match found with
      | Some (c :: s) =>
          lift (console_log (fallback_notice sitemapPath (c :: s))) ;;
          notify sitemapUrl
      | _ => lift (console_log (no_sitemap_warning sitemapPath))
      end
    else notify sitemapUrl.

End Hook.

End Network.

End Async.

(** The events of the loop over [ts] when [k] requests were sent before
    it and a promise may stay pending, and whether the loop comes to its
    end: it stops at the first request whose promise does not settle. *)
Fixpoint ping_trace (net : nat -> jsstring -> list Callbacks.NodeEvent)
  (k : nat) (ts : list Target) : bool * list Event :=
  match ts with
  | [] => (true, [])
  | t :: rest =>
      match Callbacks.httpGet (net k (url t)) with
      | Some p =>
          (fst (ping_trace net (S k) rest),
           Get (url t) :: Print (ping_line t p) ::
           snd (ping_trace net (S k) rest))
      | None => (false, [Get (url t)])
      end
  end.

(** Every promise settles, and settles as [wire] says. *)
Definition settles_as_wire (net : nat -> jsstring -> list Callbacks.NodeEvent)
  (w : World) : Prop :=
  forall k u, Callbacks.httpGet (net k u) = Some (wire w k u).

(** A network on which every response is cut after its headers and a
    first chunk: no ["end"], and no ["error"] of the request. *)
Definition net_cut (_ : nat) (_ : jsstring) : list Callbacks.NodeEvent :=
  [Callbacks.OnResponse 200; Callbacks.OnData (lit "<html>")].

(** A network on which the first response ends with status 200, the
    second with 404, and any later request fails before a response. *)
Definition net_mixed (k : nat) (_ : jsstring) : list Callbacks.NodeEvent :=
  match k with
  | 0%nat => [Callbacks.OnResponse 200; Callbacks.OnData (lit "ok"); Callbacks.OnEnd]
  | 1%nat => [Callbacks.OnResponse 404; Callbacks.OnEnd]
  | _ => [Callbacks.OnError {| message := lit "connect ECONNREFUSED" |}]
  end.

(** A network on which the first response ends with status 200 and
    every later one is cut after its headers. *)
Definition net_cut_after_one (k : nat) (_ : jsstring)
  : list Callbacks.NodeEvent :=
  match k with
  | 0%nat => [Callbacks.OnResponse 200; Callbacks.OnEnd]
  | _ => [Callbacks.OnResponse 200]
  end.

(* ===================================================================== *)
(** * Strings *)
(* ===================================================================== *)

Lemma replace_trailing_slash_snoc (t : jsstring) :
  replace_trailing_slash (t ++ [slash]) = t.
Proof.
  induction t as [|c t IH]; [reflexivity|].
  destruct t as [|d t]; [reflexivity|].
  change (c :: replace_trailing_slash ((d :: t) ++ [slash]) = c :: d :: t).
  now rewrite IH.
Qed.

Lemma ends_with_cons_intro (c d : N) (s : jsstring) :
  ends_with c s -> ends_with c (d :: s).
Proof. intros [t ->]. now exists (d :: t). Qed.

Lemma replace_trailing_slash_keeps (s : jsstring) :
  ~ ends_with slash s -> replace_trailing_slash s = s.
Proof.
  induction s as [|c s IH]; intros Hno; [reflexivity|].
  destruct s as [|d s].
  - simpl. destruct (N.eqb_spec c slash) as [->|Hne]; [|reflexivity].
    exfalso. apply Hno. now exists [].
  - change (c :: replace_trailing_slash (d :: s) = c :: d :: s).
    rewrite IH; [reflexivity|].
    intros H. apply Hno. now apply ends_with_cons_intro.
Qed.

Lemma ends_with_inj (c d : N) (s t : jsstring) :
  s ++ [c] = t ++ [d] -> s = t /\ c = d.
Proof. intros H. apply app_inj_tail in H. exact H. Qed.

Lemma ends_with_dec (c : N) (s : jsstring) :
  ends_with c s \/ ~ ends_with c s.
Proof.
  induction s as [|d s _] using rev_ind.
  - right. intros [t Ht]. now destruct t.
  - destruct (N.eq_dec d c) as [->|Hne].
    + left. now exists s.
    + right. intros [t Ht]. apply ends_with_inj in Ht. now destruct Ht.
Qed.

(* ===================================================================== *)
(** * Worlds and traces *)
(* ===================================================================== *)

Lemma extend_nil (w : World) : extend w [] = w.
Proof. destruct w. unfold extend. simpl. now rewrite app_nil_r. Qed.

Lemma extend_extend (w : World) (a b : list Event) :
  extend (extend w a) b = extend w (a ++ b).
Proof. unfold extend. simpl. now rewrite app_assoc. Qed.

Lemma requests_app (a b : list Event) :
  requests (a ++ b) = requests a ++ requests b.
Proof.
  induction a as [|[p|u|l] a IH]; simpl; [reflexivity|assumption| |assumption].
  now rewrite IH.
Qed.

Lemma probes_app (a b : list Event) :
  probes (a ++ b) = probes a ++ probes b.
Proof.
  induction a as [|[p|u|l] a IH]; simpl; [reflexivity| |assumption|assumption].
  now rewrite IH.
Qed.

Lemma prints_app (a b : list Event) :
  prints (a ++ b) = prints a ++ prints b.
Proof.
  induction a as [|[p|u|l] a IH]; simpl; [reflexivity|assumption|assumption|].
  now rewrite IH.
Qed.

Lemma probes_map_Probe (ps : list jsstring) : probes (map Probe ps) = ps.
Proof. induction ps as [|p ps IH]; simpl; [reflexivity|now rewrite IH]. Qed.

Lemma requests_map_Probe (ps : list jsstring) : requests (map Probe ps) = [].
Proof. induction ps as [|p ps IH]; simpl; [reflexivity|assumption]. Qed.


Lemma requests_checks (a : jsstring) (ps : list jsstring) (line : jsstring) :
  requests (Probe a :: map Probe ps ++ [Print line]) = [].
Proof. simpl. now rewrite requests_app, requests_map_Probe. Qed.

Lemma sent_extend (w : World) (evs : list Event) :
  sent (extend w evs) = (sent w + List.length (requests evs))%nat.
Proof. unfold sent. simpl. now rewrite requests_app, length_app. Qed.

Lemma requests_ping_events net k ts :
  requests (ping_events net k ts) = map url ts.
Proof.
  revert k. induction ts as [|t ts IH]; intros k; simpl; [reflexivity|].
  now rewrite IH.
Qed.

Lemma probes_ping_events net k ts : probes (ping_events net k ts) = [].
Proof.
  revert k. induction ts as [|t ts IH]; intros k; simpl; [reflexivity|].
  apply IH.
Qed.

(* ===================================================================== *)
(** * Running the pieces of the hook *)
(* ===================================================================== *)

Lemma ping_run (target : Target) (w : World) :
  ping target w =
  (inr tt, extend w [Get (url target);
                     Print (ping_line target (wire w (sent w) (url target)))]).
Proof.
  unfold ping, try_catch, bind, httpGet.
  destruct (wire w (sent w) (url target)) as [res|err];
    unfold await, ret, throw, console_log, emit;
    now rewrite extend_extend.
Qed.

Lemma for_of_ping_run (ts : list Target) (w : World) :
  for_of ts ping w = (inr tt, extend w (ping_events (wire w) (sent w) ts)).
Proof.
  revert w. induction ts as [|t ts IH]; intros w.
  - simpl. unfold ret. now rewrite extend_nil.
  - simpl. unfold bind. rewrite ping_run, IH, extend_extend, sent_extend.
    simpl. now rewrite Nat.add_1_r.
Qed.

Lemma targets_run (sitemapUrl e : jsstring) (w : World) :
  encodeURIComponent sitemapUrl = inr e ->
  targets sitemapUrl w = (inr (target_list e), w).
Proof. intros H. unfold targets, bind, eval. now rewrite H. Qed.

Lemma targets_throw (sitemapUrl : jsstring) (err : Error) (w : World) :
  encodeURIComponent sitemapUrl = inl err ->
  targets sitemapUrl w = (inl err, w).
Proof. intros H. unfold targets, bind, eval. now rewrite H. Qed.

Lemma notify_run (sitemapUrl e : jsstring) (w : World) :
  encodeURIComponent sitemapUrl = inr e ->
  notify sitemapUrl w =
  (inr tt,
   extend w (Print banner :: Print (sitemap_line sitemapUrl) ::
             ping_events (wire w) (sent w) (target_list e) ++
             [Print done_line])).
Proof.
  intros H. unfold notify, bind, console_log, emit.
  rewrite (targets_run _ e _ H), for_of_ping_run.
  rewrite !extend_extend, !sent_extend. simpl.
  now rewrite !Nat.add_0_r.
Qed.

Lemma notify_throw (sitemapUrl : jsstring) (err : Error) (w : World) :
  encodeURIComponent sitemapUrl = inl err ->
  notify sitemapUrl w =
  (inl err, extend w [Print banner; Print (sitemap_line sitemapUrl)]).
Proof.
  intros H. unfold notify, bind, console_log, emit.
  rewrite (targets_throw _ err _ H). now rewrite !extend_extend.
Qed.

Section Runs.

Variable path_join : jsstring -> jsstring -> jsstring.

Lemma find_alternative_run (dir : jsstring) (alts : list jsstring) (w : World) :
  find_alternative path_join dir alts w =
  (inr (find (fun alt => disk w (path_join dir alt)) alts),
   extend w (map Probe (probed_until_hit (disk w) (map (path_join dir) alts)))).
Proof.
  revert w. induction alts as [|alt alts IH]; intros w.
  - simpl. unfold ret. now rewrite extend_nil.
  - simpl. unfold bind, existsSync.
    destruct (disk w (path_join dir alt)) eqn:Hd.
    + reflexivity.
    + rewrite IH, extend_extend. reflexivity.
Qed.

Lemma onSuccess_unresolved (args : Args) (w : World) :
  truthy (Some (resolve_siteUrl (inputs args) (env_URL w))) = false ->
  onSuccess path_join args w = (inr tt, extend w [Print no_site_url_warning]).
Proof.
  intros H. cbv beta iota zeta delta [onSuccess bind process_env_URL].
  now rewrite H.
Qed.

Lemma onSuccess_present (args : Args) (w : World) :
  truthy (Some (resolve_siteUrl (inputs args) (env_URL w))) = true ->
  disk w (path_join (PUBLISH_DIR (constants args))
                    (resolve_sitemapPath (inputs args))) = true ->
  onSuccess path_join args w =
  notify (resolve_siteUrl (inputs args) (env_URL w) ++
          resolve_sitemapPath (inputs args))
         (extend w [Probe (path_join (PUBLISH_DIR (constants args))
                                     (resolve_sitemapPath (inputs args)))]).
Proof.
  intros H Hd. cbv beta iota zeta delta [onSuccess bind process_env_URL existsSync].
  rewrite H. cbv beta iota delta [negb]. now rewrite Hd.
Qed.

Lemma onSuccess_fallback (args : Args) (w : World) (found : jsstring) :
  truthy (Some (resolve_siteUrl (inputs args) (env_URL w))) = true ->
  disk w (path_join (PUBLISH_DIR (constants args))
                    (resolve_sitemapPath (inputs args))) = false ->
  find (fun alt => disk w (path_join (PUBLISH_DIR (constants args)) alt))
       alternatives = Some found ->
  onSuccess path_join args w =
  notify (resolve_siteUrl (inputs args) (env_URL w) ++
          resolve_sitemapPath (inputs args))
         (extend w
            (Probe (path_join (PUBLISH_DIR (constants args))
                              (resolve_sitemapPath (inputs args))) ::
             map Probe
               (probed_until_hit (disk w)
                  (map (path_join (PUBLISH_DIR (constants args))) alternatives))
             ++ [Print (fallback_notice (resolve_sitemapPath (inputs args))
                                        found)])).
Proof.
  intros H Hd Hf. cbv beta iota zeta delta [onSuccess bind process_env_URL existsSync].
  rewrite H. cbv beta iota delta [negb]. rewrite Hd.
  cbv beta iota delta [negb]. rewrite find_alternative_run.
  change (disk (extend w _)) with (disk w). rewrite Hf.
  assert (Hne : exists c s, found = c :: s).
  { apply find_some in Hf. destruct Hf as [Hin _].
    destruct Hin as [<-|[<-|[<-|[]]]]; now eexists; eexists. }
  destruct Hne as (c & s & ->).
  unfold console_log, emit. rewrite !extend_extend.
  rewrite <- ?app_assoc. reflexivity.
Qed.

Lemma onSuccess_missing (args : Args) (w : World) :
  truthy (Some (resolve_siteUrl (inputs args) (env_URL w))) = true ->
  disk w (path_join (PUBLISH_DIR (constants args))
                    (resolve_sitemapPath (inputs args))) = false ->
  find (fun alt => disk w (path_join (PUBLISH_DIR (constants args)) alt))
       alternatives = None ->
  onSuccess path_join args w =
  (inr tt,
   extend w
     (Probe (path_join (PUBLISH_DIR (constants args))
                       (resolve_sitemapPath (inputs args))) ::
      map Probe
        (probed_until_hit (disk w)
           (map (path_join (PUBLISH_DIR (constants args))) alternatives))
      ++ [Print (no_sitemap_warning (resolve_sitemapPath (inputs args)))])).
Proof.
  intros H Hd Hf. cbv beta iota zeta delta [onSuccess bind process_env_URL existsSync].
  rewrite H. cbv beta iota delta [negb]. rewrite Hd.
  cbv beta iota delta [negb]. rewrite find_alternative_run.
  change (disk (extend w _)) with (disk w). rewrite Hf.
  unfold console_log, emit. rewrite !extend_extend.
  rewrite <- ?app_assoc. reflexivity.
Qed.

End Runs.

Lemma notify_events (sitemapUrl : jsstring) (w : World) :
  exists r evs, notify sitemapUrl w = (r, extend w evs) /\ probes evs = [].
Proof.
  destruct (encodeURIComponent sitemapUrl) as [err|e] eqn:He.
  - rewrite (notify_throw _ err _ He). now eexists; eexists.
  - rewrite (notify_run _ e _ He). eexists; eexists. split; [reflexivity|].
    change (probes (ping_events (wire w) (sent w) (target_list e) ++
                    [Print done_line]) = []).
    now rewrite probes_app, probes_ping_events.
Qed.

(* ===================================================================== *)
(** * Phase 1: resolving the site URL *)
(* ===================================================================== *)

Lemma truthy_nonempty (s : jsstring) : s <> [] -> truthy (Some s) = true.
Proof. destruct s; [contradiction|reflexivity]. Qed.

Lemma resolve_siteUrl_input (i : Inputs) (env : optstr) (s : jsstring) :
  siteUrl i = Some s -> s <> [] ->
  resolve_siteUrl i env = replace_trailing_slash s.
Proof.
  intros Hi Hs. unfold resolve_siteUrl, or_else. rewrite Hi.
  destruct s as [|c s]; [contradiction|reflexivity].
Qed.

Lemma no_slash_left (raw : jsstring) :
  ~ (exists t, raw = t ++ [slash; slash]) ->
  ~ ends_with slash (replace_trailing_slash raw).
Proof.
  intros Htwo. destruct (ends_with_dec slash raw) as [[t ->]|Hno].
  - rewrite replace_trailing_slash_snoc. intros [t' ->].
    apply Htwo. exists t'. now rewrite <- app_assoc.
  - now rewrite replace_trailing_slash_keeps.
Qed.

(** C2, as amended. A non-empty [siteUrl] input that ends in a slash
    resolves to the input without that one slash, and a non-empty input
    that does not end in a slash resolves to itself. One slash is
    removed, not all of them: the resolved site URL followed by a path
    with a leading slash has no double slash at the join when the value
    taken from the input or the environment does not end in two
    slashes. *)
Theorem site_url_loses_one_trailing_slash (i : Inputs) (env : optstr) :
  (forall t, siteUrl i = Some (t ++ [slash]) -> resolve_siteUrl i env = t) /\
  (forall s, siteUrl i = Some s -> s <> [] -> ~ ends_with slash s ->
             resolve_siteUrl i env = s) /\
  (~ (exists t, or_lit (or_else (siteUrl i) env) [] = t ++ [slash; slash]) ->
   forall p, ~ double_slash_at_join (resolve_siteUrl i env) p).
Proof.
  split; [|split].
  - intros t Hi. rewrite (resolve_siteUrl_input i env _ Hi).
    + apply replace_trailing_slash_snoc.
    + now destruct t.
  - intros s Hi Hs Hno. rewrite (resolve_siteUrl_input i env _ Hi Hs).
    now apply replace_trailing_slash_keeps.
  - intros Htwo p [Hend _]. revert Hend. now apply no_slash_left.
Qed.

Lemma site_url_loses_one_trailing_slash_witness :
  resolve_siteUrl {| siteUrl := Some (lit "https://example.com/");
                     sitemapPath := None |} None = lit "https://example.com" /\
  resolve_siteUrl {| siteUrl := Some (lit "https://example.com");
                     sitemapPath := None |} None = lit "https://example.com" /\
  ~ double_slash_at_join
      (resolve_siteUrl {| siteUrl := Some (lit "https://example.com/");
                          sitemapPath := None |} None)
      (lit "/sitemap-index.xml").
Proof.
  split; [|split].
  - apply (proj1 (site_url_loses_one_trailing_slash
                    {| siteUrl := Some (lit "https://example.com/");
                       sitemapPath := None |} None) (lit "https://example.com")).
    reflexivity.
  - apply (proj1 (proj2 (site_url_loses_one_trailing_slash
                    {| siteUrl := Some (lit "https://example.com");
                       sitemapPath := None |} None))).
    + reflexivity.
    + discriminate.
    + intros [t Ht].
      apply (f_equal (@rev N)) in Ht. rewrite rev_app_distr in Ht.
      vm_compute in Ht. discriminate.
  - apply (proj2 (proj2 (site_url_loses_one_trailing_slash
                    {| siteUrl := Some (lit "https://example.com/");
                       sitemapPath := None |} None))).
    intros [t Ht].
    apply (f_equal (@rev N)) in Ht. rewrite rev_app_distr in Ht.
    vm_compute in Ht. discriminate.
Defined.

(** C2, as stated, fails: a site URL that ends in two slashes keeps one
    of them, and the default sitemap path starts with a slash. *)
Lemma double_slash_counterexample :
  let i := {| siteUrl := Some (lit "https://example.com//");
              sitemapPath := None |} in
  truthy (Some (resolve_siteUrl i None)) = true /\
  double_slash_at_join (resolve_siteUrl i None) (resolve_sitemapPath i) /\
  resolve_siteUrl i None ++ resolve_sitemapPath i
  = lit "https://example.com//sitemap-index.xml".
Proof.
  split; [reflexivity|split; [|reflexivity]].
  split.
  - exists (lit "https://example.com"). reflexivity.
  - exists (lit "sitemap-index.xml"). reflexivity.
Qed.

Section Phase1.

Variable path_join : jsstring -> jsstring -> jsstring.

(** C3. When [inputs.siteUrl] is absent or empty and [process.env.URL]
    is absent or empty, the run prints one line, the warning, which
    starts with the warning sign and names both ways to configure the
    site URL; it checks no file, sends no request, and returns without
    throwing. *)
Theorem no_site_url_stops_the_run (args : Args) (w : World) :
  siteUrl (inputs args) = None \/ siteUrl (inputs args) = Some [] ->
  env_URL w = None \/ env_URL w = Some [] ->
  let msg :=
    warning_sign ++
    lit "  Sitemap Ping: No site URL found. Set siteUrl in plugin inputs or ensure URL env var is set." in
  onSuccess path_join args w = (inr tt, extend w [Print msg]) /\
  probes [Print msg] = [] /\ requests [Print msg] = [] /\
  starts_with warning_sign msg = true /\
  occurs (lit "siteUrl in plugin inputs") msg = true /\
  occurs (lit "URL env var") msg = true.
Proof.
  intros Hi He msg. split; [|repeat split].
  apply onSuccess_unresolved. unfold resolve_siteUrl, or_else.
  destruct Hi as [-> | ->], He as [-> | ->]; reflexivity.
Qed.

(** C10. A site URL that is just ["/"], from the input or, when the
    input is absent or empty, from the environment, resolves to the
    empty string: the run prints the no-site-URL warning and stops,
    with no file check and no request. *)
Theorem lone_slash_is_unresolved (args : Args) (w : World) :
  siteUrl (inputs args) = Some (lit "/") \/
  ((siteUrl (inputs args) = None \/ siteUrl (inputs args) = Some []) /\
   env_URL w = Some (lit "/")) ->
  resolve_siteUrl (inputs args) (env_URL w) = [] /\
  onSuccess path_join args w = (inr tt, extend w [Print no_site_url_warning]) /\
  probes [Print no_site_url_warning] = [] /\
  requests [Print no_site_url_warning] = [].
Proof.
  intros H.
  assert (Hr : resolve_siteUrl (inputs args) (env_URL w) = []).
  { unfold resolve_siteUrl, or_else.
    destruct H as [-> | [[-> | ->] ->]]; reflexivity. }
  split; [exact Hr|]. split; [|split; reflexivity].
  apply onSuccess_unresolved. now rewrite Hr.
Qed.

End Phase1.

Lemma no_site_url_stops_the_run_witness :
  (siteUrl (inputs (args_of None None)) = None \/
   siteUrl (inputs (args_of None None)) = Some []) /\
  (env_URL (start (fun _ => true) mixed_net (Some [])) = None \/
   env_URL (start (fun _ => true) mixed_net (Some [])) = Some []) /\
  onSuccess join_plain (args_of None None)
    (start (fun _ => true) mixed_net (Some []))
  = (inr tt, extend (start (fun _ => true) mixed_net (Some []))
               [Print no_site_url_warning]).
Proof.
  split; [left; reflexivity|]. split; [right; reflexivity|].
  apply (no_site_url_stops_the_run join_plain (args_of None None)
           (start (fun _ => true) mixed_net (Some []))).
  - left. reflexivity.
  - right. reflexivity.
Defined.

Lemma lone_slash_is_unresolved_witness :
  siteUrl (inputs (args_of (Some (lit "/")) None)) = Some (lit "/") /\
  onSuccess join_plain (args_of (Some (lit "/")) None)
    (start (fun _ => true) mixed_net (Some (lit "https://example.com")))
  = (inr tt,
     extend (start (fun _ => true) mixed_net (Some (lit "https://example.com")))
       [Print no_site_url_warning]).
Proof.
  split; [reflexivity|].
  apply (lone_slash_is_unresolved join_plain (args_of (Some (lit "/")) None)
           (start (fun _ => true) mixed_net (Some (lit "https://example.com")))).
  left. reflexivity.
Defined.

(* ===================================================================== *)
(** * Phases 2 and 3: the sitemap check and the pings *)
(* ===================================================================== *)

Lemma find_none_intro {A} (f : A -> bool) (l : list A) :
  (forall x, In x l -> f x = false) -> find f l = None.
Proof.
  induction l as [|a l IH]; intros H; [reflexivity|].
  simpl. rewrite (H a (or_introl eq_refl)). apply IH.
  intros x Hx. apply H. now right.
Qed.


Section Phases2and3.

Variable path_join : jsstring -> jsstring -> jsstring.

Lemma onSuccess_probes (args : Args) (w : World) :
  truthy (Some (resolve_siteUrl (inputs args) (env_URL w))) = true ->
  disk w (path_join (PUBLISH_DIR (constants args))
                    (resolve_sitemapPath (inputs args))) = false ->
  exists r evs,
    onSuccess path_join args w = (r, extend w evs) /\
    probes evs =
    path_join (PUBLISH_DIR (constants args)) (resolve_sitemapPath (inputs args))
    :: probed_until_hit (disk w)
         (map (path_join (PUBLISH_DIR (constants args))) alternatives).
Proof.
  intros H Hd.
  destruct (find (fun alt => disk w (path_join (PUBLISH_DIR (constants args)) alt))
              alternatives) as [found|] eqn:Hf.
  - rewrite (onSuccess_fallback path_join args w found H Hd Hf).
    match goal with |- context [notify ?u ?w'] =>
      destruct (notify_events u w') as (r & evs & Hn & Hp); rewrite Hn end.
    rewrite extend_extend. eexists; eexists. split; [reflexivity|].
    change (?a :: ?l ++ ?b) with ((a :: l) ++ b).
    rewrite !probes_app, Hp. simpl.
    now rewrite probes_map_Probe, !app_nil_r.
  - rewrite (onSuccess_missing path_join args w H Hd Hf).
    eexists; eexists. split; [reflexivity|].
    simpl. now rewrite probes_app, probes_map_Probe, app_nil_r.
Qed.

(** C4. When the configured path is missing, the run checks
    [/sitemap.xml], then [/sitemap-index.xml], then [/sitemap-0.xml]
    under the publish directory, and no path after the first one that
    exists. *)
Theorem fallbacks_probed_in_order_until_hit (args : Args) (w : World) :
  resolve_siteUrl (inputs args) (env_URL w) <> [] ->
  disk w (path_join (PUBLISH_DIR (constants args))
                    (resolve_sitemapPath (inputs args))) = false ->
  let dir := PUBLISH_DIR (constants args) in
  let configured := path_join dir (resolve_sitemapPath (inputs args)) in
  let first := path_join dir (lit "/sitemap.xml") in
  let second := path_join dir (lit "/sitemap-index.xml") in
  let third := path_join dir (lit "/sitemap-0.xml") in
  exists r evs,
    onSuccess path_join args w = (r, extend w evs) /\
    (disk w first = true -> probes evs = [configured; first]) /\
    (disk w first = false -> disk w second = true ->
     probes evs = [configured; first; second]) /\
    (disk w first = false -> disk w second = false ->
     probes evs = [configured; first; second; third]).
Proof.
  intros H Hd dir configured first second third. apply truthy_nonempty in H.
  destruct (onSuccess_probes args w H Hd) as (r & evs & Hrun & Hp).
  exists r, evs. split; [exact Hrun|].
  rewrite Hp. fold dir. fold configured.
  cbv beta iota delta [alternatives map probed_until_hit].
  fold first. fold second. fold third.
  split; [|split].
  - now intros ->.
  - now intros -> ->.
  - intros -> ->. now destruct (disk w third).
Qed.

(** C5. When neither the configured path nor any fallback exists, the
    run checks the four paths, prints the warning that names the
    configured path, sends no request, and returns without throwing. *)
Theorem no_sitemap_stops_the_run (args : Args) (w : World) :
  resolve_siteUrl (inputs args) (env_URL w) <> [] ->
  disk w (path_join (PUBLISH_DIR (constants args))
                    (resolve_sitemapPath (inputs args))) = false ->
  (forall alt, In alt alternatives ->
     disk w (path_join (PUBLISH_DIR (constants args)) alt) = false) ->
  let dir := PUBLISH_DIR (constants args) in
  let evs :=
    [Probe (path_join dir (resolve_sitemapPath (inputs args)));
     Probe (path_join dir (lit "/sitemap.xml"));
     Probe (path_join dir (lit "/sitemap-index.xml"));
     Probe (path_join dir (lit "/sitemap-0.xml"));
     Print (warning_sign ++ lit "  Sitemap Ping: No sitemap found at " ++
            resolve_sitemapPath (inputs args) ++ lit ". Skipping.")] in
  onSuccess path_join args w = (inr tt, extend w evs) /\ requests evs = [].
Proof.
  intros H Hd Hall dir evs. apply truthy_nonempty in H. split; [|reflexivity].
  rewrite (onSuccess_missing path_join args w H Hd).
  - cbv beta iota delta [alternatives map probed_until_hit].
    rewrite !Hall by (unfold alternatives; simpl; tauto).
    reflexivity.
  - now apply find_none_intro.
Qed.


End Phases2and3.

Lemma fallbacks_probed_in_order_until_hit_witness :
  resolve_siteUrl
                  (inputs (args_of (Some (lit "https://example.com")) None))
                  (env_URL (start (only_file (lit "/opt/build/repo/dist/sitemap-0.xml"))
                              mixed_net None)) <> [] /\
  disk (start (only_file (lit "/opt/build/repo/dist/sitemap-0.xml")) mixed_net None)
       (join_plain dist (lit "/sitemap-index.xml")) = false /\
  exists r evs,
    onSuccess join_plain (args_of (Some (lit "https://example.com")) None)
      (start (only_file (lit "/opt/build/repo/dist/sitemap-0.xml")) mixed_net None)
    = (r, extend (start (only_file (lit "/opt/build/repo/dist/sitemap-0.xml"))
                    mixed_net None) evs) /\
    probes evs = [lit "/opt/build/repo/dist/sitemap-index.xml";
                  lit "/opt/build/repo/dist/sitemap.xml";
                  lit "/opt/build/repo/dist/sitemap-index.xml";
                  lit "/opt/build/repo/dist/sitemap-0.xml"].
Proof.
  split; [discriminate|]. split; [reflexivity|].
  destruct (fallbacks_probed_in_order_until_hit join_plain
              (args_of (Some (lit "https://example.com")) None)
              (start (only_file (lit "/opt/build/repo/dist/sitemap-0.xml"))
                 mixed_net None) ltac:(discriminate) eq_refl)
    as (r & evs & Hrun & _ & _ & Hthird).
  exists r, evs. split; [exact Hrun|].
  apply Hthird; reflexivity.
Defined.

Lemma no_sitemap_stops_the_run_witness :
  resolve_siteUrl
                  (inputs (args_of (Some (lit "https://example.com")) None))
                  (env_URL (start (fun _ => false) mixed_net None)) <> [] /\
  disk (start (fun _ => false) mixed_net None)
       (join_plain dist (lit "/sitemap-index.xml")) = false /\
  (forall alt, In alt alternatives ->
     disk (start (fun _ => false) mixed_net None) (join_plain dist alt) = false) /\
  onSuccess join_plain (args_of (Some (lit "https://example.com")) None)
    (start (fun _ => false) mixed_net None)
  = (inr tt,
     extend (start (fun _ => false) mixed_net None)
       [Probe (lit "/opt/build/repo/dist/sitemap-index.xml");
        Probe (lit "/opt/build/repo/dist/sitemap.xml");
        Probe (lit "/opt/build/repo/dist/sitemap-index.xml");
        Probe (lit "/opt/build/repo/dist/sitemap-0.xml");
        Print (warning_sign ++
               lit "  Sitemap Ping: No sitemap found at /sitemap-index.xml. Skipping.")]).
Proof.
  split; [discriminate|]. split; [reflexivity|]. split; [reflexivity|].
  apply (no_sitemap_stops_the_run join_plain
           (args_of (Some (lit "https://example.com")) None)
           (start (fun _ => false) mixed_net None));
    [discriminate|reflexivity|reflexivity].
Defined.


(* ===================================================================== *)
(** * Running the hook again *)
(* ===================================================================== *)

Lemma alike_refl (w : World) : alike w w.
Proof. now repeat split. Qed.

Lemma alike_extend (w w' : World) (evs : list Event) :
  alike w w' -> alike (extend w evs) (extend w' evs).
Proof.
  intros (Hd & He & Hw). repeat split; [exact Hd|exact He|].
  intros i u. rewrite !sent_extend, <- !Nat.add_assoc. apply Hw.
Qed.

Lemma steady_ret {A} (a : A) : steady (ret a).
Proof.
  intros w w' _. exists (inr a), []. now rewrite !extend_nil.
Qed.

Lemma steady_eval {A} (r : Error + A) : steady (eval r).
Proof.
  intros w w' _. exists r, []. now rewrite !extend_nil.
Qed.

Lemma steady_throw {A} (e : Error) : steady (@throw A e).
Proof.
  intros w w' _. exists (inl e), []. now rewrite !extend_nil.
Qed.

Lemma steady_console_log (line : jsstring) : steady (console_log line).
Proof. intros w w' _. now exists (inr tt), [Print line]. Qed.

Lemma steady_existsSync (path : jsstring) : steady (existsSync path).
Proof.
  intros w w' (Hd & _). exists (inr (disk w path)), [Probe path].
  unfold existsSync. now rewrite Hd.
Qed.

Lemma steady_process_env_URL : steady process_env_URL.
Proof.
  intros w w' (_ & He & _). exists (inr (env_URL w)), [].
  unfold process_env_URL. now rewrite He, !extend_nil.
Qed.

Lemma steady_httpGet (u : jsstring) : steady (httpGet u).
Proof.
  intros w w' (_ & _ & Hw). exists (inr (wire w (sent w) u)), [Get u].
  unfold httpGet.
  specialize (Hw 0%nat u). rewrite !Nat.add_0_r in Hw. now rewrite Hw.
Qed.

Lemma steady_await (p : Settled) : steady (await p).
Proof. destruct p; [apply steady_ret|apply steady_throw]. Qed.

Lemma steady_bind {A B} (m : M A) (k : A -> M B) :
  steady m -> (forall a, steady (k a)) -> steady (bind m k).
Proof.
  intros Hm Hk w w' Ha.
  destruct (Hm w w' Ha) as (r & evs & E & E').
  unfold bind. rewrite E, E'. destruct r as [err|a].
  - now exists (inl err), evs.
  - destruct (Hk a _ _ (alike_extend _ _ evs Ha)) as (r2 & evs2 & F & F').
    rewrite F, F', !extend_extend. now exists r2, (evs ++ evs2).
Qed.

Lemma steady_try_catch {A} (m : M A) (h : Error -> M A) :
  steady m -> (forall e, steady (h e)) -> steady (try_catch m h).
Proof.
  intros Hm Hh w w' Ha.
  destruct (Hm w w' Ha) as (r & evs & E & E').
  unfold try_catch. rewrite E, E'. destruct r as [err|a].
  - destruct (Hh err _ _ (alike_extend _ _ evs Ha)) as (r2 & evs2 & F & F').
    rewrite F, F', !extend_extend. now exists r2, (evs ++ evs2).
  - now exists (inr a), evs.
Qed.

Lemma steady_for_of {T} (xs : list T) (body : T -> M unit) :
  (forall x, steady (body x)) -> steady (for_of xs body).
Proof.
  intros Hb. induction xs as [|x xs IH]; simpl.
  - apply steady_ret.
  - apply steady_bind; [apply Hb|intros _; exact IH].
Qed.

Create HintDb steady.

#[local] Hint Resolve steady_ret steady_eval steady_throw steady_console_log
  steady_existsSync steady_process_env_URL steady_httpGet steady_await
  : steady.

Ltac steady_step :=
  first [ apply steady_bind; [|intro]
        | apply steady_try_catch; [|intro]
        | apply steady_for_of; intro
        | solve [auto with steady] ].

Lemma steady_ping (target : Target) : steady (ping target).
Proof. unfold ping. repeat steady_step. Qed.

Lemma steady_notify (sitemapUrl : jsstring) : steady (notify sitemapUrl).
Proof.
  unfold notify, targets. repeat steady_step.
Qed.

Section Again.

Variable path_join : jsstring -> jsstring -> jsstring.

Lemma steady_find_alternative (dir : jsstring) (alts : list jsstring) :
  steady (find_alternative path_join dir alts).
Proof.
  induction alts as [|alt alts IH]; simpl; [apply steady_ret|].
  apply steady_bind; [apply steady_existsSync|].
  intros [|]; [apply steady_ret|exact IH].
Qed.

Lemma steady_onSuccess (args : Args) : steady (onSuccess path_join args).
Proof.
  unfold onSuccess. apply steady_bind; [apply steady_process_env_URL|].
  intros env. cbv zeta.
  destruct (negb (truthy (Some (resolve_siteUrl (inputs args) env)))).
  - apply steady_console_log.
  - apply steady_bind; [apply steady_existsSync|]. intros present.
    destruct (negb present); [|apply steady_notify].
    apply steady_bind; [apply steady_find_alternative|].
    intros [[|c s]|]; try apply steady_console_log.
    apply steady_bind; [apply steady_console_log|].
    intros _. apply steady_notify.
Qed.

(** C9. A run only appends events to the trace: the disk is as it was.
    A second run, started in the world the first one leaves, with the
    same inputs, and with the network settling its requests as it
    settled those of the first run, returns the same result and appends
    the same events, so the same lines are printed, however they are
    classified. *)
Theorem second_run_repeats_the_first (args : Args) (w : World) :
  (forall i u,
     wire w (sent (snd (onSuccess path_join args w)) + i)%nat u
     = wire w (sent w + i)%nat u) ->
  exists r evs,
    onSuccess path_join args w = (r, extend w evs) /\
    onSuccess path_join args (extend w evs) = (r, extend (extend w evs) evs) /\
    disk (extend w evs) = disk w /\
    disk (extend (extend w evs) evs) = disk w /\
    forall (C : Type) (classify : jsstring -> C),
      map classify (prints (trace (extend (extend w evs) evs)))
      = map classify (prints (trace w)) ++ map classify (prints evs)
        ++ map classify (prints evs).
Proof.
  intros Hnet.
  destruct (steady_onSuccess args w w (alike_refl w)) as (r1 & evs1 & E1 & _).
  rewrite E1 in Hnet. cbn [snd] in Hnet.
  assert (Ha : alike w (extend w evs1)).
  { repeat split. intros i u. symmetry. apply Hnet. }
  destruct (steady_onSuccess args _ _ Ha) as (r & evs & E & E').
  rewrite E1 in E. injection E as -> Hw.
  assert (Hevs : evs1 = evs).
  { now apply app_inv_head in Hw. }
  subst evs1. exists r, evs.
  split; [exact E1|]. split; [exact E'|]. split; [reflexivity|].
  split; [reflexivity|].
  intros C classify. simpl. now rewrite !prints_app, !map_app, app_assoc.
Qed.

End Again.

Lemma second_run_repeats_the_first_witness :
  (forall i u,
     wire (start (fun _ => true) (fun _ _ => answers 200) None)
          (sent (snd (onSuccess join_plain
                        (args_of (Some (lit "https://example.com")) None)
                        (start (fun _ => true) (fun _ _ => answers 200) None)))
           + i)%nat u
     = wire (start (fun _ => true) (fun _ _ => answers 200) None)
            (sent (start (fun _ => true) (fun _ _ => answers 200) None) + i)%nat
            u) /\
  exists r evs,
    onSuccess join_plain (args_of (Some (lit "https://example.com")) None)
      (start (fun _ => true) (fun _ _ => answers 200) None)
    = (r, extend (start (fun _ => true) (fun _ _ => answers 200) None) evs) /\
    onSuccess join_plain (args_of (Some (lit "https://example.com")) None)
      (extend (start (fun _ => true) (fun _ _ => answers 200) None) evs)
    = (r, extend (extend (start (fun _ => true) (fun _ _ => answers 200) None)
                    evs) evs).
Proof.
  split; [reflexivity|].
  destruct (second_run_repeats_the_first join_plain
              (args_of (Some (lit "https://example.com")) None)
              (start (fun _ => true) (fun _ _ => answers 200) None))
    as (r & evs & E1 & E2 & _).
  - reflexivity.
  - now exists r, evs.
Defined.

(* ===================================================================== *)
(** * Example runs *)
(* ===================================================================== *)

Example lit_slash : lit "/" = [slash].
Proof. reflexivity. Qed.

Example replace_one_slash :
  replace_trailing_slash (lit "https://example.com/") = lit "https://example.com".
Proof. reflexivity. Qed.

Example replace_only_the_last_slash :
  replace_trailing_slash (lit "a/b//") = lit "a/b/".
Proof. reflexivity. Qed.

Example encode_ascii :
  encodeURIComponent (lit "https://example.com/sitemap-index.xml")
  = inr (lit "https%3A%2F%2Fexample.com%2Fsitemap-index.xml").
Proof. reflexivity. Qed.

Example encode_unescaped_marks :
  encodeURIComponent (lit "A-z_0.9!~*'()") = inr (lit "A-z_0.9!~*'()").
Proof. reflexivity. Qed.

(* U+00E9 takes two octets; U+1F4E1 is a surrogate pair and takes four. *)
Example encode_non_ascii :
  encodeURIComponent [0xE9; 0xD83D; 0xDCE1] = inr (lit "%C3%A9%F0%9F%93%A1").
Proof. reflexivity. Qed.

Example encode_lone_surrogate :
  encodeURIComponent [0x61; 0xD83D] = inl URIError.
Proof. reflexivity. Qed.

Example number_404 : number_to_string 404 = lit "404".
Proof. reflexivity. Qed.

(** Three targets that answer 200, 404 and refuse the connection: one
    line each, then the completion line, and no error. *)
Example mixed_outcomes_run :
  onSuccess join_plain (args_of (Some (lit "https://example.com/")) None)
    (start (fun _ => true) mixed_net None)
  = (inr tt,
     extend (start (fun _ => true) mixed_net None)
       [Probe (lit "/opt/build/repo/dist/sitemap-index.xml");
        Print banner;
        Print (lit "   Sitemap: https://example.com/sitemap-index.xml" ++ nl);
        Get (lit "https://www.google.com/ping?sitemap=https%3A%2F%2Fexample.com%2Fsitemap-index.xml");
        Print (lit "   " ++ check_mark ++ lit " Google");
        Get (lit "https://www.bing.com/ping?sitemap=https%3A%2F%2Fexample.com%2Fsitemap-index.xml");
        Print (lit "   " ++ warning_sign ++ lit "  404 Bing (IndexNow)");
        Get (lit "https://yandex.com/ping?sitemap=https%3A%2F%2Fexample.com%2Fsitemap-index.xml");
        Print (lit "   " ++ cross_mark ++ lit " Yandex: connect ECONNREFUSED");
        Print done_line]).
Proof. reflexivity. Qed.

(** The environment's URL is used when the input is absent. *)
Example site_url_from_environment :
  resolve_siteUrl {| siteUrl := None; sitemapPath := None |}
    (Some (lit "https://example.netlify.app/"))
  = lit "https://example.netlify.app".
Proof. reflexivity. Qed.

(** A site URL with an unpaired surrogate: [encodeURIComponent] throws
    after the banner, before any request, and nothing catches it. *)
Example lone_surrogate_run :
  onSuccess join_plain (args_of (Some (lit "https://example.com/" ++ [0xD83D])) None)
    (start (fun _ => true) mixed_net None)
  = (inl URIError,
     extend (start (fun _ => true) mixed_net None)
       [Probe (lit "/opt/build/repo/dist/sitemap-index.xml");
        Print banner;
        Print (sitemap_line (lit "https://example.com/" ++ [0xD83D] ++
                             lit "/sitemap-index.xml"))]).
Proof. reflexivity. Qed.

(* ===================================================================== *)
(** * [httpGet]: how the promise settles *)
(* ===================================================================== *)

Lemma settled_stays (c : Callbacks.Call) (evs : list Callbacks.NodeEvent)
  (s : Settled) :
  Callbacks.promise c = Some s ->
  Callbacks.promise (fold_left Callbacks.deliver evs c) = Some s.
Proof.
  revert c. induction evs as [|ev evs IH]; intros c Hc; [exact Hc|].
  simpl. apply IH.
  destruct ev as [code|chunk| |err]; simpl;
    try destruct (Callbacks.response c); simpl; rewrite ?Hc; trivial.
Qed.

Lemma data_arrives (code : N) (chunks : list jsstring) (d : jsstring)
  (p : option Settled) :
  fold_left Callbacks.deliver (map Callbacks.OnData chunks)
    {| Callbacks.response := Some code; Callbacks.data := d;
       Callbacks.promise := p |}
  = {| Callbacks.response := Some code; Callbacks.data := d ++ List.concat chunks;
       Callbacks.promise := p |}.
Proof.
  revert d. induction chunks as [|chunk chunks IH]; intros d; simpl.
  - now rewrite app_nil_r.
  - rewrite IH. now rewrite app_assoc.
Qed.

(** X1. A response with status [code] whose chunks arrive and which
    then ends resolves the promise with that status and with the
    chunks, concatenated in order of arrival, as the body; what Node
    delivers after the end changes nothing. *)
Theorem httpGet_resolves_with_status_and_body (code : N)
  (chunks : list jsstring) (later : list Callbacks.NodeEvent) :
  Callbacks.httpGet
    (Callbacks.OnResponse code :: map Callbacks.OnData chunks ++
     Callbacks.OnEnd :: later)
  = Some (Fulfilled {| status := code; body := List.concat chunks |}).
Proof.
  unfold Callbacks.httpGet. simpl. rewrite fold_left_app, data_arrives.
  simpl. now apply settled_stays.
Qed.

(** X2. The promise settles once: when it is settled after some events,
    it is settled in the same way after any further events, so an error
    after the end does not reject it and an end after an error does not
    resolve it. *)
Theorem httpGet_settles_once (evs later : list Callbacks.NodeEvent)
  (s : Settled) :
  Callbacks.httpGet evs = Some s ->
  Callbacks.httpGet (evs ++ later) = Some s.
Proof.
  unfold Callbacks.httpGet. intros H. rewrite fold_left_app.
  now apply settled_stays.
Qed.

Lemma httpGet_settles_once_witness :
  Callbacks.httpGet [Callbacks.OnResponse 200; Callbacks.OnEnd]
  = Some (answers 200) /\
  Callbacks.httpGet ([Callbacks.OnResponse 200; Callbacks.OnEnd] ++
                     [Callbacks.OnError {| message := lit "socket hang up" |}])
  = Some (answers 200).
Proof.
  split; [reflexivity|].
  apply (httpGet_settles_once [Callbacks.OnResponse 200; Callbacks.OnEnd]
           [Callbacks.OnError {| message := lit "socket hang up" |}]
           (answers 200)).
  reflexivity.
Defined.

(** X3. An error of the request rejects the promise with that error
    when it comes before the response has ended, whether no response
    has arrived yet or a response and some of its chunks have. *)
Theorem httpGet_rejects_on_error (err : Error) (code : N)
  (chunks : list jsstring) (later : list Callbacks.NodeEvent) :
  Callbacks.httpGet (Callbacks.OnError err :: later) = Some (Rejected err) /\
  Callbacks.httpGet
    (Callbacks.OnResponse code :: map Callbacks.OnData chunks ++
     Callbacks.OnError err :: later)
  = Some (Rejected err).
Proof.
  unfold Callbacks.httpGet. split.
  - simpl. now apply settled_stays.
  - simpl. rewrite fold_left_app, data_arrives. simpl. now apply settled_stays.
Qed.

Lemma pending_stays (c : Callbacks.Call) (evs : list Callbacks.NodeEvent) :
  Callbacks.promise c = None ->
  forallb (fun ev => negb (Callbacks.closes ev)) evs = true ->
  Callbacks.promise (fold_left Callbacks.deliver evs c) = None.
Proof.
  revert c. induction evs as [|ev evs IH]; intros c Hc Hevs; [exact Hc|].
  simpl in Hevs. apply andb_true_iff in Hevs. destruct Hevs as [Hev Hevs].
  simpl. apply IH; [|exact Hevs].
  destruct ev as [code|chunk| |err]; simpl in *; try discriminate;
    try destruct (Callbacks.response c); simpl; exact Hc.
Qed.

(** X4. Without an ["end"] of the response and without an ["error"] of
    the request the promise stays pending, however much of the response
    has arrived: [httpGet] sets no time limit of its own. *)
Theorem httpGet_pending_without_end_or_error
  (evs : list Callbacks.NodeEvent) :
  forallb (fun ev => negb (Callbacks.closes ev)) evs = true ->
  Callbacks.httpGet evs = None.
Proof.
  intros H. unfold Callbacks.httpGet. now apply pending_stays.
Qed.

Lemma httpGet_pending_without_end_or_error_witness :
  forallb (fun ev => negb (Callbacks.closes ev))
    [Callbacks.OnResponse 200; Callbacks.OnData (lit "<html>")] = true /\
  Callbacks.httpGet [Callbacks.OnResponse 200; Callbacks.OnData (lit "<html>")]
  = None.
Proof.
  split; [reflexivity|].
  apply (httpGet_pending_without_end_or_error
           [Callbacks.OnResponse 200; Callbacks.OnData (lit "<html>")]).
  reflexivity.
Defined.

(* ===================================================================== *)
(** * [encodeURIComponent]: what it writes and when it throws *)
(* ===================================================================== *)

(** Induction for functions that consume one or two code units at a
    time. *)
Lemma two_units_ind (P : jsstring -> Prop) :
  P [] ->
  (forall c rest, P rest ->
     (forall d rest', rest = d :: rest' -> P rest') -> P (c :: rest)) ->
  forall s, P s.
Proof.
  intros Hnil Hstep s.
  assert (H : P s /\ forall c, P (c :: s)); [|exact (proj1 H)].
  induction s as [|a s [IHs IHcons]].
  - split; [exact Hnil|]. intros c. apply Hstep; [exact Hnil|].
    intros d rest' Heq. discriminate.
  - split; [apply IHcons|]. intros c. apply Hstep; [apply IHcons|].
    intros d rest' Heq. injection Heq as _ <-. exact IHs.
Qed.

Lemma hex_digit_unescaped (d : N) : d < 16 -> unescaped (hex_digit d) = true.
Proof.
  intros Hd. unfold hex_digit, unescaped.
  destruct (N.ltb_spec d 10) as [Hlt|Hge].
  - assert (H1 : (48 <=? 48 + d) = true) by (apply N.leb_le; lia).
    assert (H2 : (48 + d <=? 57) = true) by (apply N.leb_le; lia).
    rewrite H1, H2. simpl. now rewrite !orb_true_r.
  - assert (H1 : (65 <=? 55 + d) = true) by (apply N.leb_le; lia).
    assert (H2 : (55 + d <=? 90) = true) by (apply N.leb_le; lia).
    now rewrite H1, H2.
Qed.

Lemma percent_safe (octet : N) :
  octet < 256 -> Forall (fun c => uri_safe c = true) (percent octet).
Proof.
  intros Ho. unfold percent, uri_safe. repeat constructor.
  - rewrite hex_digit_unescaped; [reflexivity|].
    apply N.Div0.div_lt_upper_bound. lia.
  - rewrite hex_digit_unescaped; [reflexivity|].
    apply N.mod_lt. discriminate.
Qed.

Lemma percent_all_safe (octets : list N) :
  Forall (fun o => o < 256) octets ->
  Forall (fun c => uri_safe c = true) (percent_all octets).
Proof.
  induction 1 as [|o octets Ho _ IH]; [constructor|].
  change (percent_all (o :: octets)) with (percent o ++ percent_all octets).
  apply Forall_app. split; [now apply percent_safe|exact IH].
Qed.

Lemma utf8_octets (cp : N) :
  cp < 0x110000 -> Forall (fun o => o < 256) (utf8 cp).
Proof.
  intros Hcp. unfold utf8.
  destruct (N.ltb_spec cp 0x80); [repeat constructor; lia|].
  destruct (N.ltb_spec cp 0x800).
  { assert (cp / 0x40 < 0x20) by (apply N.Div0.div_lt_upper_bound; lia).
    assert (cp mod 0x40 < 0x40) by (apply N.mod_lt; discriminate).
    repeat constructor; lia. }
  destruct (N.ltb_spec cp 0x10000).
  { assert (cp / 0x1000 < 0x10) by (apply N.Div0.div_lt_upper_bound; lia).
    assert ((cp / 0x40) mod 0x40 < 0x40) by (apply N.mod_lt; discriminate).
    assert (cp mod 0x40 < 0x40) by (apply N.mod_lt; discriminate).
    repeat constructor; lia. }
  assert (cp / 0x40000 < 0x5) by (apply N.Div0.div_lt_upper_bound; lia).
  assert ((cp / 0x1000) mod 0x40 < 0x40) by (apply N.mod_lt; discriminate).
  assert ((cp / 0x40) mod 0x40 < 0x40) by (apply N.mod_lt; discriminate).
  assert (cp mod 0x40 < 0x40) by (apply N.mod_lt; discriminate).
  repeat constructor; lia.
Qed.

Lemma surrogate_pair_bound (lead trail : N) :
  is_leading_surrogate lead = true -> is_trailing_surrogate trail = true ->
  surrogate_pair lead trail < 0x110000.
Proof.
  unfold is_leading_surrogate, is_trailing_surrogate, surrogate_pair.
  intros Hl Ht. apply andb_true_iff in Hl, Ht.
  destruct Hl as [Hl1 Hl2], Ht as [Ht1 Ht2].
  apply N.leb_le in Hl1, Hl2, Ht1, Ht2. lia.
Qed.

Lemma encoded_units_safe (s e : jsstring) :
  Forall is_code_unit s ->
  encodeURIComponent s = inr e ->
  Forall (fun c => uri_safe c = true) e.
Proof.
  revert e. induction s as [|c rest IHrest IHpair] using two_units_ind;
    intros e Hs He.
  - simpl in He. injection He as <-. constructor.
  - apply Forall_cons_iff in Hs. destruct Hs as [Hc Hrest].
    simpl in He. destruct (unescaped c) eqn:Hu.
    { destruct (encodeURIComponent rest) as [err|r] eqn:Hr; [discriminate|].
      injection He as <-. constructor.
      - unfold uri_safe. now rewrite Hu.
      - now apply IHrest. }
    destruct (is_leading_surrogate c) eqn:Hlead.
    { destruct rest as [|d rest']; [discriminate|].
      destruct (is_trailing_surrogate d) eqn:Htrail; [|discriminate].
      destruct (encodeURIComponent rest') as [err|r] eqn:Hr; [discriminate|].
      injection He as <-. apply Forall_app. split.
      - apply percent_all_safe, utf8_octets.
        now apply surrogate_pair_bound.
      - apply (IHpair d rest' eq_refl); [|exact Hr].
        apply Forall_cons_iff in Hrest. apply Hrest. }
    destruct (is_trailing_surrogate c); [discriminate|].
    destruct (encodeURIComponent rest) as [err|r] eqn:Hr; [discriminate|].
    injection He as <-. apply Forall_app. split.
    + apply percent_all_safe, utf8_octets. unfold is_code_unit in Hc. lia.
    + now apply IHrest.
Qed.

(** X5. Whatever [encodeURIComponent] returns for a string of 16-bit
    code units consists of unescaped characters and percent signs
    only: no slash, colon, question mark, ampersand, equals sign, hash
    or space is left in it. *)
Theorem encodeURIComponent_writes_safe_units (s e : jsstring) :
  Forall is_code_unit s ->
  encodeURIComponent s = inr e ->
  forall c, In c e ->
    uri_safe c = true /\
    ~ In c (lit "/:?&=#+, ").
Proof.
  intros Hs He c Hc.
  assert (Hsafe : uri_safe c = true).
  { pose proof (encoded_units_safe s e Hs He) as H.
    rewrite Forall_forall in H. now apply H. }
  split; [exact Hsafe|].
  intros Hin. simpl in Hin.
  repeat (destruct Hin as [<-|Hin]; [discriminate Hsafe|]).
  exact Hin.
Qed.

Lemma encodeURIComponent_writes_safe_units_witness :
  Forall is_code_unit (lit "https://example.com/a b?c=d&e#f") /\
  encodeURIComponent (lit "https://example.com/a b?c=d&e#f")
  = inr (lit "https%3A%2F%2Fexample.com%2Fa%20b%3Fc%3Dd%26e%23f") /\
  In 37 (lit "https%3A%2F%2Fexample.com%2Fa%20b%3Fc%3Dd%26e%23f") /\
  uri_safe 37 = true /\ ~ In 37 (lit "/:?&=#+, ").
Proof.
  assert (H : Forall is_code_unit (lit "https://example.com/a b?c=d&e#f")).
  { repeat constructor. }
  assert (Hin : In 37 (lit "https%3A%2F%2Fexample.com%2Fa%20b%3Fc%3Dd%26e%23f")).
  { simpl. tauto. }
  split; [exact H|]. split; [reflexivity|]. split; [exact Hin|].
  apply (encodeURIComponent_writes_safe_units
           (lit "https://example.com/a b?c=d&e#f")
           (lit "https%3A%2F%2Fexample.com%2Fa%20b%3Fc%3Dd%26e%23f") H
           eq_refl 37 Hin).
Defined.

(** X6. A string of unescaped characters (letters, digits and
    [-_.!~*'()]) is returned as it is. *)
Theorem encodeURIComponent_keeps_unescaped (s : jsstring) :
  Forall (fun c => unescaped c = true) s ->
  encodeURIComponent s = inr s.
Proof.
  induction 1 as [|c s Hc _ IH]; [reflexivity|].
  simpl. now rewrite Hc, IH.
Qed.

Lemma encodeURIComponent_keeps_unescaped_witness :
  Forall (fun c => unescaped c = true) (lit "sitemap-index.xml") /\
  encodeURIComponent (lit "sitemap-index.xml") = inr (lit "sitemap-index.xml").
Proof.
  assert (H : Forall (fun c => unescaped c = true) (lit "sitemap-index.xml")).
  { repeat constructor. }
  split; [exact H|].
  apply (encodeURIComponent_keeps_unescaped (lit "sitemap-index.xml") H).
Defined.

Lemma not_surrogate (c : N) :
  is_surrogate c = false ->
  is_leading_surrogate c = false /\ is_trailing_surrogate c = false.
Proof. unfold is_surrogate. apply orb_false_iff. Qed.

Lemma encode_app  (a b : jsstring) :
  Forall (fun c => is_surrogate c = false) a ->
  exists x,
    encodeURIComponent a = inr x /\
    encodeURIComponent (a ++ b)
    = match encodeURIComponent b with
      | inr y => inr (x ++ y)
      | inl err => inl err
      end.
Proof.
  induction 1 as [|c a Hc _ (x & Ha & Hab)].
  - exists []. split; [reflexivity|]. simpl.
    now destruct (encodeURIComponent b).
  - apply not_surrogate in Hc. destruct Hc as [Hlead Htrail].
    simpl. rewrite Hlead, Htrail, Ha, Hab.
    destruct (unescaped c).
    + exists (c :: x). split; [reflexivity|].
      now destruct (encodeURIComponent b).
    + exists (percent_all (utf8 c) ++ x). split; [reflexivity|].
      destruct (encodeURIComponent b); [reflexivity|].
      now rewrite app_assoc.
Qed.

(** X7. [encodeURIComponent] does not throw for a string without
    surrogate code units, and encoding such a string followed by a
    second string is encoding the two and joining the results; the
    call throws exactly when the second one does. *)
Theorem encodeURIComponent_app  (a b : jsstring) :
  Forall (fun c => is_surrogate c = false) a ->
  exists x,
    encodeURIComponent a = inr x /\
    encodeURIComponent (a ++ b)
    = match encodeURIComponent b with
      | inr y => inr (x ++ y)
      | inl err => inl err
      end.
Proof.
  intros Ha. destruct (encode_app a b Ha) as (x & Hx & Hab).
  exists x. split; [exact Hx|exact Hab].
Qed.

Lemma encodeURIComponent_app_witness :
  Forall (fun c => is_surrogate c = false) (lit "https://example.com") /\
  encodeURIComponent (lit "https://example.com" ++ lit "/sitemap.xml")
  = inr (lit "https%3A%2F%2Fexample.com" ++ lit "%2Fsitemap.xml").
Proof.
  assert (H : Forall (fun c => is_surrogate c = false)
                (lit "https://example.com")).
  { repeat constructor. }
  split; [exact H|].
  destruct (encodeURIComponent_app (lit "https://example.com")
              (lit "/sitemap.xml") H) as (x & Hx & Happ).
  rewrite Happ. injection Hx as <-. reflexivity.
Defined.

Lemma encodeURIComponent_error (s : jsstring) (err : Error) :
  encodeURIComponent s = inl err -> err = URIError.
Proof.
  revert err. induction s as [|c rest IHrest IHpair] using two_units_ind;
    intros err He; [discriminate|].
  simpl in He. destruct (unescaped c).
  { destruct (encodeURIComponent rest) as [err'|r]; [|discriminate].
    injection He as <-. now apply IHrest. }
  destruct (is_leading_surrogate c).
  { destruct rest as [|d rest']; [now injection He as <-|].
    destruct (is_trailing_surrogate d); [|now injection He as <-].
    destruct (encodeURIComponent rest') as [err'|r] eqn:Hr; [|discriminate].
    injection He as <-. now apply (IHpair d rest' eq_refl). }
  destruct (is_trailing_surrogate c); [now injection He as <-|].
  destruct (encodeURIComponent rest) as [err'|r]; [|discriminate].
  injection He as <-. now apply IHrest.
Qed.

(* ===================================================================== *)
(** * The hook as a whole *)
(* ===================================================================== *)

Lemma probed_until_hit_length (present : jsstring -> bool)
  (paths : list jsstring) :
  (List.length (probed_until_hit present paths) <= List.length paths)%nat.
Proof.
  induction paths as [|p paths IH]; simpl; [lia|].
  destruct (present p); simpl; lia.
Qed.

Lemma prints_ping_events_length net k ts :
  List.length (prints (ping_events net k ts)) = List.length ts.
Proof.
  revert k. induction ts as [|t ts IH]; intros k; simpl; [reflexivity|].
  now rewrite IH.
Qed.

Lemma ping_events_transfer (net net' : nat -> jsstring -> Settled)
  (n n' : nat) (ts : list Target) :
  (forall t k, ping_line t (net (n + k)%nat (url t))
               = ping_line t (net' (n' + k)%nat (url t))) ->
  ping_events net n ts = ping_events net' n' ts.
Proof.
  revert n n'. induction ts as [|t ts IH]; intros n n' H; [reflexivity|].
  simpl. rewrite (IH (S n) (S n')).
  - specialize (H t 0%nat). rewrite !Nat.add_0_r in H. now rewrite H.
  - intros t' k. specialize (H t' (S k)).
    now rewrite !Nat.add_succ_r in H.
Qed.

Lemma probes_checks (a : jsstring) (ps : list jsstring) (line : jsstring) :
  probes (Probe a :: map Probe ps ++ [Print line]) = a :: ps.
Proof. simpl. now rewrite probes_app, probes_map_Probe, app_nil_r. Qed.

Lemma nonempty_truthy (s : jsstring) : truthy (Some s) = false -> s = [].
Proof. destruct s; [reflexivity|discriminate]. Qed.

Section Whole.

Variable path_join : jsstring -> jsstring -> jsstring.

(** The existence checks of a run that reaches phase 2, with the
    fallback notice when a fallback is found. *)
Lemma checks_of_a_run (args : Args) (w : World) :
  truthy (Some (resolve_siteUrl (inputs args) (env_URL w))) = true ->
  exists checks,
    requests checks = [] /\
    (1 <= List.length (probes checks) <= 4)%nat /\
    hd_error checks
    = Some (Probe (path_join (PUBLISH_DIR (constants args))
                             (resolve_sitemapPath (inputs args)))) /\
    (disk w (path_join (PUBLISH_DIR (constants args))
                       (resolve_sitemapPath (inputs args))) = true ->
     checks = [Probe (path_join (PUBLISH_DIR (constants args))
                                (resolve_sitemapPath (inputs args)))]) /\
    ((disk w (path_join (PUBLISH_DIR (constants args))
                        (resolve_sitemapPath (inputs args))) = false /\
      (forall alt, In alt alternatives ->
         disk w (path_join (PUBLISH_DIR (constants args)) alt) = false) /\
      onSuccess path_join args w =
      (inr tt,
       extend w (checks ++
                 [Print (no_sitemap_warning
                           (resolve_sitemapPath (inputs args)))])))
     \/
     ((disk w (path_join (PUBLISH_DIR (constants args))
                         (resolve_sitemapPath (inputs args))) = true \/
       exists alt, In alt alternatives /\
         disk w (path_join (PUBLISH_DIR (constants args)) alt) = true) /\
      onSuccess path_join args w =
      notify (resolve_siteUrl (inputs args) (env_URL w) ++
              resolve_sitemapPath (inputs args))
             (extend w checks))).
Proof.
  intros H.
  set (dir := PUBLISH_DIR (constants args)).
  set (path := resolve_sitemapPath (inputs args)).
  set (probed := probed_until_hit (disk w) (map (path_join dir) alternatives)).
  assert (Hlen : (List.length probed <= 3)%nat).
  { unfold probed.
    pose proof (probed_until_hit_length (disk w)
                  (map (path_join dir) alternatives)) as Hlen.
    now rewrite length_map in Hlen. }
  destruct (disk w (path_join dir path)) eqn:Hd.
  - exists [Probe (path_join dir path)].
    split; [reflexivity|]. split; [simpl; lia|].
    split; [reflexivity|]. split; [reflexivity|].
    right. split; [now left|].
    now apply onSuccess_present.
  - destruct (find (fun alt => disk w (path_join dir alt)) alternatives)
      as [found|] eqn:Hf.
    + exists (Probe (path_join dir path) :: map Probe probed ++
              [Print (fallback_notice path found)]).
      split; [apply requests_checks|].
      split.
      { rewrite probes_checks. cbn [List.length]. lia. }
      split; [reflexivity|]. split; [discriminate|].
      right. split.
      * right. destruct (find_some _ _ Hf) as [Hin Ht].
        exists found. split; [exact Hin|exact Ht].
      * now apply onSuccess_fallback.
    + exists (Probe (path_join dir path) :: map Probe probed).
      split; [apply requests_map_Probe|].
      split.
      { change (probes (Probe (path_join dir path) :: map Probe probed))
          with (path_join dir path :: probes (map Probe probed)).
        rewrite probes_map_Probe. cbn [List.length]. lia. }
      split; [reflexivity|]. split; [discriminate|].
      left. split; [reflexivity|]. split.
      * intros alt Hin. now apply (find_none _ _ Hf).
      * rewrite <- app_comm_cons. now apply onSuccess_missing.
Qed.

Lemma notify_transfer (sitemapUrl : jsstring) (w w' : World) :
  (forall t k, ping_line t (wire w (sent w + k)%nat (url t))
               = ping_line t (wire w' (sent w' + k)%nat (url t))) ->
  exists r evs,
    notify sitemapUrl w = (r, extend w evs) /\
    notify sitemapUrl w' = (r, extend w' evs).
Proof.
  intros Hlines.
  destruct (encodeURIComponent sitemapUrl) as [err|e] eqn:He.
  - rewrite !(notify_throw _ err _ He). now eexists; eexists.
  - rewrite !(notify_run _ e _ He).
    rewrite (ping_events_transfer (wire w) (wire w') (sent w) (sent w') _ Hlines).
    now eexists; eexists.
Qed.

Lemma onSuccess_transfer (args : Args) (w w' : World) :
  disk w = disk w' ->
  resolve_siteUrl (inputs args) (env_URL w)
  = resolve_siteUrl (inputs args) (env_URL w') ->
  (forall t k, ping_line t (wire w (sent w + k)%nat (url t))
               = ping_line t (wire w' (sent w' + k)%nat (url t))) ->
  exists r evs,
    onSuccess path_join args w = (r, extend w evs) /\
    onSuccess path_join args w' = (r, extend w' evs).
Proof.
  intros Hdisk Hsite Hlines.
  assert (Hafter : forall checks, requests checks = [] ->
            exists r evs,
              notify (resolve_siteUrl (inputs args) (env_URL w) ++
                      resolve_sitemapPath (inputs args)) (extend w checks)
              = (r, extend w (checks ++ evs)) /\
              notify (resolve_siteUrl (inputs args) (env_URL w) ++
                      resolve_sitemapPath (inputs args)) (extend w' checks)
              = (r, extend w' (checks ++ evs))).
  { intros checks Hreq.
    destruct (notify_transfer
                (resolve_siteUrl (inputs args) (env_URL w) ++
                 resolve_sitemapPath (inputs args))
                (extend w checks) (extend w' checks)) as (r & evs & E & E').
    - intros t k. rewrite !sent_extend, Hreq. simpl.
      rewrite !Nat.add_0_r. apply Hlines.
    - rewrite E, E', !extend_extend. now exists r, evs. }
  destruct (truthy (Some (resolve_siteUrl (inputs args) (env_URL w)))) eqn:H.
  - assert (H' := H). rewrite Hsite in H'.
    destruct (disk w (path_join (PUBLISH_DIR (constants args))
                                (resolve_sitemapPath (inputs args)))) eqn:Hd.
    + assert (Hd' := Hd). rewrite Hdisk in Hd'.
      rewrite (onSuccess_present path_join args w H Hd).
      rewrite (onSuccess_present path_join args w' H' Hd'), <- Hsite.
      destruct (Hafter [Probe (path_join (PUBLISH_DIR (constants args))
                                 (resolve_sitemapPath (inputs args)))] eq_refl)
        as (r & evs & E & E').
      rewrite E, E'. now eexists; eexists.
    + assert (Hd' := Hd). rewrite Hdisk in Hd'.
      destruct (find (fun alt => disk w (path_join (PUBLISH_DIR (constants args)) alt))
                  alternatives) as [found|] eqn:Hf.
      * assert (Hf' := Hf). rewrite Hdisk in Hf'.
        rewrite (onSuccess_fallback path_join args w found H Hd Hf).
        rewrite (onSuccess_fallback path_join args w' found H' Hd' Hf').
        rewrite <- Hsite, <- Hdisk.
        match goal with |- context [extend w ?c] =>
          destruct (Hafter c (requests_checks _ _ _)) as (r & evs & E & E')
        end.
        rewrite E, E'. now eexists; eexists.
      * assert (Hf' := Hf). rewrite Hdisk in Hf'.
        rewrite (onSuccess_missing path_join args w H Hd Hf).
        rewrite (onSuccess_missing path_join args w' H' Hd' Hf').
        rewrite <- Hdisk. now eexists; eexists.
  - assert (H' := H). rewrite Hsite in H'.
    rewrite (onSuccess_unresolved path_join args w H).
    rewrite (onSuccess_unresolved path_join args w' H').
    now eexists; eexists.
Qed.

End Whole.

Lemma replace_trailing_slash_units (P : N -> Prop) (s : jsstring) :
  Forall P s -> Forall P (replace_trailing_slash s).
Proof.
  intros Hs. destruct (ends_with_dec slash s) as [[t ->]|Hno].
  - rewrite replace_trailing_slash_snoc.
    apply Forall_app in Hs. apply Hs.
  - now rewrite replace_trailing_slash_keeps.
Qed.

Lemma resolve_siteUrl_units (P : N -> Prop) (i : Inputs) (env : optstr) :
  all_units P (siteUrl i) -> all_units P env ->
  Forall P (resolve_siteUrl i env).
Proof.
  intros Hi He. unfold resolve_siteUrl. apply replace_trailing_slash_units.
  unfold or_else. destruct (siteUrl i) as [[|c s]|]; simpl.
  - destruct env as [[|c s]|]; simpl; [constructor|exact He|constructor].
  - exact Hi.
  - destruct env as [[|c s]|]; simpl; [constructor|exact He|constructor].
Qed.

Lemma resolve_sitemapPath_units (P : N -> Prop) (i : Inputs) :
  all_units P (sitemapPath i) -> Forall P (lit "/sitemap-index.xml") ->
  Forall P (resolve_sitemapPath i).
Proof.
  intros Hi Hd. unfold resolve_sitemapPath.
  destruct (sitemapPath i) as [[|c s]|]; simpl; [exact Hd|exact Hi|exact Hd].
Qed.

Lemma ping_line_same_reply (t : Target) (p q : Settled) :
  same_reply p q -> ping_line t p = ping_line t q.
Proof.
  destruct p as [a|e], q as [b|f]; simpl; try contradiction.
  - now intros ->.
  - now intros ->.
Qed.

(** X17. The loop works for any list of targets: it sends one request
    per target, in the order of the list, prints one line per target,
    checks no file, and does not throw, however the requests settle. *)
Theorem loop_handles_any_targets (ts : list Target) (w : World) :
  exists evs,
    for_of ts ping w = (inr tt, extend w evs) /\
    requests evs = map url ts /\
    List.length (prints evs) = List.length ts /\
    probes evs = [].
Proof.
  exists (ping_events (wire w) (sent w) ts).
  split; [apply for_of_ping_run|].
  split; [apply requests_ping_events|].
  split; [apply prints_ping_events_length|apply probes_ping_events].
Qed.

Section WholeProperties.

Variable path_join : jsstring -> jsstring -> jsstring.

(** X8. When no code unit of [inputs.siteUrl], of [process.env.URL]
    and of [inputs.sitemapPath] is a surrogate, the hook returns
    without throwing, whatever is on the disk and whatever the network
    does. *)
Theorem onSuccess_returns_without_surrogates (args : Args) (w : World) :
  all_units (fun c => is_surrogate c = false) (siteUrl (inputs args)) ->
  all_units (fun c => is_surrogate c = false) (env_URL w) ->
  all_units (fun c => is_surrogate c = false) (sitemapPath (inputs args)) ->
  fst (onSuccess path_join args w) = inr tt.
Proof.
  intros Hsite Henv Hpath.
  destruct (truthy (Some (resolve_siteUrl (inputs args) (env_URL w)))) eqn:H.
  - destruct (checks_of_a_run path_join args w H)
      as (checks & _ & _ & _ & _ & [(_ & _ & E)|(_ & E)]);
      rewrite E; [reflexivity|].
    assert (Hunits : Forall (fun c => is_surrogate c = false)
                       (resolve_siteUrl (inputs args) (env_URL w) ++
                        resolve_sitemapPath (inputs args))).
    { apply Forall_app. split.
      - now apply resolve_siteUrl_units.
      - apply resolve_sitemapPath_units; [exact Hpath|repeat constructor]. }
    destruct (encode_app _ [] Hunits) as (e & He & _).
    now rewrite (notify_run _ e _ He).
  - now rewrite (onSuccess_unresolved path_join args w H).
Qed.

(** X9. The only error the hook throws is the [URIError] of
    [encodeURIComponent], for the sitemap URL; when it throws, it has
    sent no request. *)
Theorem onSuccess_throws_only_URIError (args : Args) (w w' : World)
  (err : Error) :
  onSuccess path_join args w = (inl err, w') ->
  err = URIError /\
  encodeURIComponent (resolve_siteUrl (inputs args) (env_URL w) ++
                      resolve_sitemapPath (inputs args)) = inl URIError /\
  exists evs, w' = extend w evs /\ requests evs = [].
Proof.
  intros Hrun.
  destruct (truthy (Some (resolve_siteUrl (inputs args) (env_URL w)))) eqn:H.
  - destruct (checks_of_a_run path_join args w H)
      as (checks & Hreq & _ & _ & _ & [(_ & _ & E)|(_ & E)]);
      rewrite E in Hrun; [discriminate|].
    destruct (encodeURIComponent
                (resolve_siteUrl (inputs args) (env_URL w) ++
                 resolve_sitemapPath (inputs args))) as [err'|e] eqn:He.
    + rewrite (notify_throw _ err' _ He), extend_extend in Hrun.
      injection Hrun as -> <-.
      pose proof (encodeURIComponent_error _ _ He) as ->.
      split; [reflexivity|]. split; [reflexivity|].
      eexists. split; [reflexivity|].
      now rewrite requests_app, Hreq.
    + rewrite (notify_run _ e _ He) in Hrun. discriminate.
  - rewrite (onSuccess_unresolved path_join args w H) in Hrun. discriminate.
Qed.

(** X11. When the configured sitemap exists, the run makes that one
    existence check and goes straight to the banner: no fallback is
    probed and no notice is printed. *)
Theorem present_sitemap_needs_one_check (args : Args) (w : World) :
  resolve_siteUrl (inputs args) (env_URL w) <> [] ->
  disk w (path_join (PUBLISH_DIR (constants args))
                    (resolve_sitemapPath (inputs args))) = true ->
  exists r rest,
    onSuccess path_join args w =
    (r, extend w
          (Probe (path_join (PUBLISH_DIR (constants args))
                            (resolve_sitemapPath (inputs args))) ::
           Print banner ::
           Print (sitemap_line (resolve_siteUrl (inputs args) (env_URL w) ++
                                resolve_sitemapPath (inputs args))) ::
           rest)) /\
    probes rest = [].
Proof.
  intros H Hd. apply truthy_nonempty in H.
  rewrite (onSuccess_present path_join args w H Hd).
  destruct (encodeURIComponent
              (resolve_siteUrl (inputs args) (env_URL w) ++
               resolve_sitemapPath (inputs args))) as [err|e] eqn:He.
  - rewrite (notify_throw _ err _ He), extend_extend.
    exists (inl err), []. split; reflexivity.
  - rewrite (notify_run _ e _ He), extend_extend.
    eexists; eexists. split; [reflexivity|].
    now rewrite probes_app, probes_ping_events.
Qed.

(** X12. Requests are sent only when the site URL is resolved and a
    sitemap file exists in the publish directory, at the configured
    path or at one of the fallback paths. *)
Theorem requests_need_a_sitemap (args : Args) (w : World) :
  (sent w < sent (snd (onSuccess path_join args w)))%nat ->
  resolve_siteUrl (inputs args) (env_URL w) <> [] /\
  (disk w (path_join (PUBLISH_DIR (constants args))
                     (resolve_sitemapPath (inputs args))) = true \/
   exists alt, In alt alternatives /\
     disk w (path_join (PUBLISH_DIR (constants args)) alt) = true).
Proof.
  intros Hsent.
  destruct (truthy (Some (resolve_siteUrl (inputs args) (env_URL w)))) eqn:H.
  - split; [intros Hnil; rewrite Hnil in H; discriminate|].
    destruct (checks_of_a_run path_join args w H)
      as (checks & Hreq & _ & _ & _ & [(_ & _ & E)|(Hfound & _)]);
      [|exact Hfound].
    rewrite E in Hsent. cbn [snd] in Hsent.
    rewrite sent_extend, requests_app, Hreq in Hsent. simpl in Hsent. lia.
  - rewrite (onSuccess_unresolved path_join args w H) in Hsent.
    cbn [snd] in Hsent. rewrite sent_extend in Hsent. simpl in Hsent. lia.
Qed.

(** X13. Every existence check of a run comes before its first
    request: the events of a run split into a part without requests
    followed by a part without existence checks. *)
Theorem checks_come_before_requests (args : Args) (w : World) :
  exists r before after,
    onSuccess path_join args w = (r, extend w (before ++ after)) /\
    requests before = [] /\ probes after = [].
Proof.
  destruct (truthy (Some (resolve_siteUrl (inputs args) (env_URL w)))) eqn:H.
  - destruct (checks_of_a_run path_join args w H)
      as (checks & Hreq & _ & _ & _ & [(_ & _ & E)|(_ & E)]);
      rewrite E.
    + exists (inr tt), checks, [Print (no_sitemap_warning
                                         (resolve_sitemapPath (inputs args)))].
      now repeat split.
    + match goal with |- context [notify ?u ?w0] =>
        destruct (notify_events u w0) as (r & evs & En & Hp)
      end.
      rewrite En, extend_extend. exists r, checks, evs. now repeat split.
  - rewrite (onSuccess_unresolved path_join args w H).
    exists (inr tt), [], [Print no_site_url_warning]. now repeat split.
Qed.

(** X14. A non-empty [inputs.siteUrl] wins over [process.env.URL]: the
    run returns the same result and leaves the same trace whatever the
    environment holds. *)
Theorem input_wins_over_environment (args : Args) (w : World)
  (c : N) (s : jsstring) (env : optstr) :
  siteUrl (inputs args) = Some (c :: s) ->
  fst (onSuccess path_join args (with_env w env))
  = fst (onSuccess path_join args w) /\
  trace (snd (onSuccess path_join args (with_env w env)))
  = trace (snd (onSuccess path_join args w)).
Proof.
  intros Hin.
  destruct (onSuccess_transfer path_join args w (with_env w env))
    as (r & evs & E & E').
  - reflexivity.
  - unfold resolve_siteUrl, or_else. now rewrite Hin.
  - reflexivity.
  - rewrite E, E'. split; reflexivity.
Qed.

(** X15. The hook reads the status of a response and the message of an
    error, and nothing else: two networks whose replies have the same
    status, or the same error message, request by request, give the
    same result and the same trace, whatever the bodies are. *)
Theorem response_bodies_are_ignored (args : Args) (w : World)
  (net : nat -> jsstring -> Settled) :
  (forall k u, same_reply (wire w k u) (net k u)) ->
  fst (onSuccess path_join args (with_wire w net))
  = fst (onSuccess path_join args w) /\
  trace (snd (onSuccess path_join args (with_wire w net)))
  = trace (snd (onSuccess path_join args w)).
Proof.
  intros Hsame.
  destruct (onSuccess_transfer path_join args w (with_wire w net))
    as (r & evs & E & E').
  - reflexivity.
  - reflexivity.
  - intros t k. apply ping_line_same_reply, Hsame.
  - rewrite E, E'. split; reflexivity.
Qed.

(** X16. One trailing slash of the site URL makes no difference: for a
    non-empty [s] that does not end in a slash, the run with
    [siteUrl = s + "/"] is the run with [siteUrl = s]. *)
Theorem trailing_slash_makes_no_difference (s : jsstring) (p : optstr)
  (k : Constants) (w : World) :
  s <> [] -> ~ ends_with slash s ->
  onSuccess path_join
    {| constants := k;
       inputs := {| siteUrl := Some (s ++ [slash]); sitemapPath := p |} |} w
  = onSuccess path_join
      {| constants := k; inputs := {| siteUrl := Some s; sitemapPath := p |} |}
      w.
Proof.
  intros Hs Hno.
  cbv beta iota zeta delta [onSuccess bind process_env_URL].
  cbn [inputs constants].
  rewrite (resolve_siteUrl_input {| siteUrl := Some (s ++ [slash]);
                                    sitemapPath := p |} (env_URL w)
             (s ++ [slash]) eq_refl) by now destruct s.
  rewrite (resolve_siteUrl_input {| siteUrl := Some s; sitemapPath := p |}
             (env_URL w) s eq_refl Hs).
  rewrite replace_trailing_slash_snoc, (replace_trailing_slash_keeps s Hno).
  reflexivity.
Qed.

(** X18. Every request of a run goes to one of the three ping
    endpoints, and what follows [sitemap=] in its URL consists of
    unescaped characters and percent signs only, when the sitemap URL
    is a string of 16-bit code units. *)
Theorem ping_urls_are_well_formed (args : Args) (w : World) :
  Forall is_code_unit (resolve_siteUrl (inputs args) (env_URL w) ++
                       resolve_sitemapPath (inputs args)) ->
  exists r evs,
    onSuccess path_join args w = (r, extend w evs) /\
    forall u, In u (requests evs) ->
      exists base e,
        In base [lit "https://www.google.com/ping?sitemap=";
                 lit "https://www.bing.com/ping?sitemap=";
                 lit "https://yandex.com/ping?sitemap="] /\
        u = base ++ e /\
        Forall (fun c => uri_safe c = true) e.
Proof.
  intros Hunits.
  destruct (truthy (Some (resolve_siteUrl (inputs args) (env_URL w)))) eqn:H.
  - destruct (checks_of_a_run path_join args w H)
      as (checks & Hreq & _ & _ & _ & [(_ & _ & E)|(_ & E)]);
      rewrite E.
    + eexists; eexists. split; [reflexivity|].
      rewrite requests_app, Hreq. simpl. contradiction.
    + destruct (encodeURIComponent
                  (resolve_siteUrl (inputs args) (env_URL w) ++
                   resolve_sitemapPath (inputs args))) as [err|e] eqn:He.
      * rewrite (notify_throw _ err _ He), extend_extend.
        eexists; eexists. split; [reflexivity|].
        rewrite requests_app, Hreq. simpl. contradiction.
      * rewrite (notify_run _ e _ He), extend_extend.
        eexists; eexists. split; [reflexivity|].
        rewrite requests_app, Hreq.
        change (requests (Print banner :: Print ?l :: ?x)) with (requests x).
        rewrite requests_app, requests_ping_events.
        pose proof (encoded_units_safe _ _ Hunits He) as Hsafe.
        intros u Hu. cbn in Hu.
        destruct Hu as [<-|[<-|[<-|[]]]].
        -- exists google_ping, e. split; [now left|]. now split.
        -- exists bing_ping, e. split; [right; now left|]. now split.
        -- exists yandex_ping, e. split; [right; right; now left|]. now split.
  - rewrite (onSuccess_unresolved path_join args w H).
    eexists; eexists. split; [reflexivity|]. simpl. contradiction.
Qed.

End WholeProperties.

Lemma onSuccess_returns_without_surrogates_witness :
  all_units (fun c => is_surrogate c = false)
    (siteUrl (inputs (args_of (Some (lit "https://example.com")) None))) /\
  all_units (fun c => is_surrogate c = false)
    (env_URL (start (fun _ => true) mixed_net (Some (lit "https://x.netlify.app")))) /\
  all_units (fun c => is_surrogate c = false)
    (sitemapPath (inputs (args_of (Some (lit "https://example.com")) None))) /\
  fst (onSuccess join_plain (args_of (Some (lit "https://example.com")) None)
         (start (fun _ => true) mixed_net (Some (lit "https://x.netlify.app"))))
  = inr tt.
Proof.
  assert (H1 : all_units (fun c => is_surrogate c = false)
                 (siteUrl (inputs (args_of (Some (lit "https://example.com"))
                                     None)))).
  { simpl. repeat constructor. }
  assert (H2 : all_units (fun c => is_surrogate c = false)
                 (env_URL (start (fun _ => true) mixed_net
                             (Some (lit "https://x.netlify.app"))))).
  { simpl. repeat constructor. }
  split; [exact H1|]. split; [exact H2|]. split; [exact I|].
  apply (onSuccess_returns_without_surrogates join_plain
           (args_of (Some (lit "https://example.com")) None)
           (start (fun _ => true) mixed_net (Some (lit "https://x.netlify.app")))
           H1 H2 I).
Defined.

Lemma onSuccess_throws_only_URIError_witness :
  onSuccess join_plain
    (args_of (Some (lit "https://example.com/" ++ [0xD83D])) None)
    (start (fun _ => true) mixed_net None)
  = (inl URIError,
     extend (start (fun _ => true) mixed_net None)
       [Probe (lit "/opt/build/repo/dist/sitemap-index.xml");
        Print banner;
        Print (sitemap_line (lit "https://example.com/" ++ [0xD83D] ++
                             lit "/sitemap-index.xml"))]) /\
  URIError = URIError /\
  encodeURIComponent (lit "https://example.com/" ++ [0xD83D] ++
                      lit "/sitemap-index.xml") = inl URIError.
Proof.
  split; [reflexivity|].
  destruct (onSuccess_throws_only_URIError join_plain
              (args_of (Some (lit "https://example.com/" ++ [0xD83D])) None)
              (start (fun _ => true) mixed_net None)
              (extend (start (fun _ => true) mixed_net None)
                 [Probe (lit "/opt/build/repo/dist/sitemap-index.xml");
                  Print banner;
                  Print (sitemap_line (lit "https://example.com/" ++ [0xD83D] ++
                                       lit "/sitemap-index.xml"))])
              URIError eq_refl) as (Herr & Henc & _).
  split; [exact Herr|exact Henc].
Defined.

Lemma present_sitemap_needs_one_check_witness :
  resolve_siteUrl (inputs (args_of (Some (lit "https://example.com")) None))
    (env_URL (start (fun _ => true) mixed_net None)) <> [] /\
  disk (start (fun _ => true) mixed_net None)
       (join_plain dist (lit "/sitemap-index.xml")) = true /\
  exists r rest,
    onSuccess join_plain (args_of (Some (lit "https://example.com")) None)
      (start (fun _ => true) mixed_net None)
    = (r, extend (start (fun _ => true) mixed_net None)
            (Probe (lit "/opt/build/repo/dist/sitemap-index.xml") ::
             Print banner ::
             Print (sitemap_line (lit "https://example.com/sitemap-index.xml")) ::
             rest)) /\
    probes rest = [].
Proof.
  split; [discriminate|]. split; [reflexivity|].
  apply (present_sitemap_needs_one_check join_plain
           (args_of (Some (lit "https://example.com")) None)
           (start (fun _ => true) mixed_net None)).
  - discriminate.
  - reflexivity.
Defined.

Lemma requests_need_a_sitemap_witness :
  (sent (start (only_file (lit "/opt/build/repo/dist/sitemap.xml")) mixed_net None)
   < sent (snd (onSuccess join_plain
                  (args_of (Some (lit "https://example.com")) None)
                  (start (only_file (lit "/opt/build/repo/dist/sitemap.xml"))
                     mixed_net None))))%nat /\
  (disk (start (only_file (lit "/opt/build/repo/dist/sitemap.xml")) mixed_net None)
        (join_plain dist (lit "/sitemap-index.xml")) = true \/
   exists alt, In alt alternatives /\
     disk (start (only_file (lit "/opt/build/repo/dist/sitemap.xml")) mixed_net None)
          (join_plain dist alt) = true).
Proof.
  assert (H : (sent (start (only_file (lit "/opt/build/repo/dist/sitemap.xml"))
                       mixed_net None)
               < sent (snd (onSuccess join_plain
                              (args_of (Some (lit "https://example.com")) None)
                              (start (only_file (lit "/opt/build/repo/dist/sitemap.xml"))
                                 mixed_net None))))%nat).
  { vm_compute. repeat constructor. }
  split; [exact H|].
  apply (proj2 (requests_need_a_sitemap join_plain
                  (args_of (Some (lit "https://example.com")) None)
                  (start (only_file (lit "/opt/build/repo/dist/sitemap.xml"))
                     mixed_net None) H)).
Defined.

Lemma input_wins_over_environment_witness :
  siteUrl (inputs (args_of (Some (lit "https://example.com")) None))
  = Some (104 :: lit "ttps://example.com") /\
  trace (snd (onSuccess join_plain
                (args_of (Some (lit "https://example.com")) None)
                (with_env (start (fun _ => true) mixed_net None)
                   (Some (lit "https://other.example")))))
  = trace (snd (onSuccess join_plain
                  (args_of (Some (lit "https://example.com")) None)
                  (start (fun _ => true) mixed_net None))).
Proof.
  split; [reflexivity|].
  apply (proj2 (input_wins_over_environment join_plain
                  (args_of (Some (lit "https://example.com")) None)
                  (start (fun _ => true) mixed_net None)
                  104 (lit "ttps://example.com")
                  (Some (lit "https://other.example")) eq_refl)).
Defined.

Lemma response_bodies_are_ignored_witness :
  (forall k u,
     same_reply (wire (start (fun _ => true) (net_with_body (lit "ok")) None) k u)
                (net_with_body (lit "<html>Sitemap received</html>") k u)) /\
  trace (snd (onSuccess join_plain
                (args_of (Some (lit "https://example.com")) None)
                (with_wire (start (fun _ => true) (net_with_body (lit "ok")) None)
                   (net_with_body (lit "<html>Sitemap received</html>")))))
  = trace (snd (onSuccess join_plain
                  (args_of (Some (lit "https://example.com")) None)
                  (start (fun _ => true) (net_with_body (lit "ok")) None))).
Proof.
  assert (H : forall k u,
            same_reply
              (wire (start (fun _ => true) (net_with_body (lit "ok")) None) k u)
              (net_with_body (lit "<html>Sitemap received</html>") k u)).
  { intros k u. reflexivity. }
  split; [exact H|].
  apply (proj2 (response_bodies_are_ignored join_plain
                  (args_of (Some (lit "https://example.com")) None)
                  (start (fun _ => true) (net_with_body (lit "ok")) None)
                  (net_with_body (lit "<html>Sitemap received</html>")) H)).
Defined.

Lemma trailing_slash_makes_no_difference_witness :
  lit "https://example.com" <> [] /\
  ~ ends_with slash (lit "https://example.com") /\
  onSuccess join_plain (args_of (Some (lit "https://example.com" ++ [slash])) None)
    (start (fun _ => true) mixed_net None)
  = onSuccess join_plain (args_of (Some (lit "https://example.com")) None)
      (start (fun _ => true) mixed_net None).
Proof.
  assert (Hno : ~ ends_with slash (lit "https://example.com")).
  { intros [t Ht]. apply (f_equal (@rev N)) in Ht.
    rewrite rev_app_distr in Ht. vm_compute in Ht. discriminate. }
  split; [discriminate|]. split; [exact Hno|].
  apply (trailing_slash_makes_no_difference join_plain
           (lit "https://example.com") None {| PUBLISH_DIR := dist |}
           (start (fun _ => true) mixed_net None)).
  - discriminate.
  - exact Hno.
Defined.

Lemma ping_urls_are_well_formed_witness :
  Forall is_code_unit
    (resolve_siteUrl
       (inputs (args_of (Some (lit "https://example.com/?a=b&c")) None))
       (env_URL (start (fun _ => true) mixed_net None)) ++
     resolve_sitemapPath
       (inputs (args_of (Some (lit "https://example.com/?a=b&c")) None))) /\
  exists r evs,
    onSuccess join_plain (args_of (Some (lit "https://example.com/?a=b&c")) None)
      (start (fun _ => true) mixed_net None)
    = (r, extend (start (fun _ => true) mixed_net None) evs) /\
    forall u, In u (requests evs) ->
      exists base e,
        In base [lit "https://www.google.com/ping?sitemap=";
                 lit "https://www.bing.com/ping?sitemap=";
                 lit "https://yandex.com/ping?sitemap="] /\
        u = base ++ e /\
        Forall (fun c => uri_safe c = true) e.
Proof.
  assert (H : Forall is_code_unit
                (resolve_siteUrl
                   (inputs (args_of (Some (lit "https://example.com/?a=b&c")) None))
                   (env_URL (start (fun _ => true) mixed_net None)) ++
                 resolve_sitemapPath
                   (inputs (args_of (Some (lit "https://example.com/?a=b&c"))
                              None)))).
  { vm_compute. repeat constructor. }
  split; [exact H|].
  apply (ping_urls_are_well_formed join_plain
           (args_of (Some (lit "https://example.com/?a=b&c")) None)
           (start (fun _ => true) mixed_net None) H).
Defined.

(* ===================================================================== *)
(** * Runs in which a promise may stay pending *)
(* ===================================================================== *)

Section AsyncRuns.

Variable net : nat -> jsstring -> list Callbacks.NodeEvent.

Lemma async_ping_run (target : Target) (w : World) :
  Async.ping net target w =
  match Callbacks.httpGet (net (sent w) (url target)) with
  | Some p =>
      (Async.Returned tt,
       extend w [Get (url target); Print (ping_line target p)])
  | None => (Async.Waiting, extend w [Get (url target)])
  end.
Proof.
  unfold Async.ping, Async.try_catch, Async.bind, Async.httpGet.
  destruct (Callbacks.httpGet (net (sent w) (url target))) as [[res|err]|];
    unfold Async.await, Async.ret, Async.throw, Async.lift, console_log, emit;
    rewrite ?extend_extend; reflexivity.
Qed.

Lemma async_for_of_ping_run (ts : list Target) (w : World) :
  Async.for_of ts (Async.ping net) w =
  (if fst (ping_trace net (sent w) ts) then Async.Returned tt
   else Async.Waiting,
   extend w (snd (ping_trace net (sent w) ts))).
Proof.
  revert w. induction ts as [|t ts IH]; intros w.
  - simpl. unfold Async.ret. now rewrite extend_nil.
  - cbn [Async.for_of ping_trace]. unfold Async.bind. rewrite async_ping_run.
    destruct (Callbacks.httpGet (net (sent w) (url t))) as [p|]; [|reflexivity].
    rewrite IH, extend_extend, sent_extend. cbn [requests List.length].
    rewrite Nat.add_1_r. reflexivity.
Qed.

Lemma async_notify_run (sitemapUrl e : jsstring) (w : World) :
  encodeURIComponent sitemapUrl = inr e ->
  Async.notify net sitemapUrl w =
  (if fst (ping_trace net (sent w) (target_list e)) then Async.Returned tt
   else Async.Waiting,
   extend w (Print banner :: Print (sitemap_line sitemapUrl) ::
             snd (ping_trace net (sent w) (target_list e)) ++
             (if fst (ping_trace net (sent w) (target_list e))
              then [Print done_line] else []))).
Proof.
  intros H.
  unfold Async.notify, Async.bind, Async.lift, console_log, emit.
  rewrite (targets_run _ e _ H), async_for_of_ping_run.
  rewrite !extend_extend, !sent_extend. cbn [requests List.length].
  rewrite !Nat.add_0_r.
  destruct (fst (ping_trace net (sent w) (target_list e)));
    cbv beta iota; rewrite ?extend_extend, ?app_nil_r; reflexivity.
Qed.

Lemma async_notify_throw (sitemapUrl : jsstring) (err : Error) (w : World) :
  encodeURIComponent sitemapUrl = inl err ->
  Async.notify net sitemapUrl w =
  (Async.Thrown err, extend w [Print banner; Print (sitemap_line sitemapUrl)]).
Proof.
  intros H.
  unfold Async.notify, Async.bind, Async.lift, console_log, emit.
  rewrite (targets_throw _ err _ H). now rewrite !extend_extend.
Qed.

Variable path_join : jsstring -> jsstring -> jsstring.

Lemma async_unresolved (args : Args) (w : World) :
  truthy (Some (resolve_siteUrl (inputs args) (env_URL w))) = false ->
  Async.onSuccess net path_join args w
  = (Async.Returned tt, extend w [Print no_site_url_warning]).
Proof.
  intros H.
  cbv beta iota zeta delta [Async.onSuccess Async.bind Async.lift process_env_URL].
  now rewrite H.
Qed.

Lemma async_present (args : Args) (w : World) :
  truthy (Some (resolve_siteUrl (inputs args) (env_URL w))) = true ->
  disk w (path_join (PUBLISH_DIR (constants args))
                    (resolve_sitemapPath (inputs args))) = true ->
  Async.onSuccess net path_join args w =
  Async.notify net
    (resolve_siteUrl (inputs args) (env_URL w) ++
     resolve_sitemapPath (inputs args))
    (extend w [Probe (path_join (PUBLISH_DIR (constants args))
                                (resolve_sitemapPath (inputs args)))]).
Proof.
  intros H Hd.
  cbv beta iota zeta delta
    [Async.onSuccess Async.bind Async.lift process_env_URL existsSync].
  rewrite H. cbv beta iota delta [negb]. now rewrite Hd.
Qed.

Lemma async_fallback (args : Args) (w : World) (found : jsstring) :
  truthy (Some (resolve_siteUrl (inputs args) (env_URL w))) = true ->
  disk w (path_join (PUBLISH_DIR (constants args))
                    (resolve_sitemapPath (inputs args))) = false ->
  find (fun alt => disk w (path_join (PUBLISH_DIR (constants args)) alt))
       alternatives = Some found ->
  Async.onSuccess net path_join args w =
  Async.notify net
    (resolve_siteUrl (inputs args) (env_URL w) ++
     resolve_sitemapPath (inputs args))
    (extend w
       (Probe (path_join (PUBLISH_DIR (constants args))
                         (resolve_sitemapPath (inputs args))) ::
        map Probe
          (probed_until_hit (disk w)
             (map (path_join (PUBLISH_DIR (constants args))) alternatives))
        ++ [Print (fallback_notice (resolve_sitemapPath (inputs args))
                                   found)])).
Proof.
  intros H Hd Hf.
  cbv beta iota zeta delta
    [Async.onSuccess Async.bind Async.lift process_env_URL existsSync].
  rewrite H. cbv beta iota delta [negb]. rewrite Hd.
  cbv beta iota delta [negb]. rewrite find_alternative_run.
  change (disk (extend w _)) with (disk w). rewrite Hf.
  assert (Hne : exists c s, found = c :: s).
  { apply find_some in Hf. destruct Hf as [Hin _].
    destruct Hin as [<-|[<-|[<-|[]]]]; now eexists; eexists. }
  destruct Hne as (c & s & ->).
  unfold console_log, emit. rewrite !extend_extend.
  rewrite <- ?app_assoc. reflexivity.
Qed.

Lemma async_missing (args : Args) (w : World) :
  truthy (Some (resolve_siteUrl (inputs args) (env_URL w))) = true ->
  disk w (path_join (PUBLISH_DIR (constants args))
                    (resolve_sitemapPath (inputs args))) = false ->
  find (fun alt => disk w (path_join (PUBLISH_DIR (constants args)) alt))
       alternatives = None ->
  Async.onSuccess net path_join args w =
  (Async.Returned tt,
   extend w
     (Probe (path_join (PUBLISH_DIR (constants args))
                       (resolve_sitemapPath (inputs args))) ::
      map Probe
        (probed_until_hit (disk w)
           (map (path_join (PUBLISH_DIR (constants args))) alternatives))
      ++ [Print (no_sitemap_warning (resolve_sitemapPath (inputs args)))])).
Proof.
  intros H Hd Hf.
  cbv beta iota zeta delta
    [Async.onSuccess Async.bind Async.lift process_env_URL existsSync].
  rewrite H. cbv beta iota delta [negb]. rewrite Hd.
  cbv beta iota delta [negb]. rewrite find_alternative_run.
  change (disk (extend w _)) with (disk w). rewrite Hf.
  unfold console_log, emit. rewrite !extend_extend.
  rewrite <- ?app_assoc. reflexivity.
Qed.

Lemma ping_trace_settled (w : World) (k : nat) (ts : list Target) :
  settles_as_wire net w ->
  ping_trace net k ts = (true, ping_events (wire w) k ts).
Proof.
  intros Hs. revert k. induction ts as [|t ts IH]; intros k; [reflexivity|].
  cbn [ping_trace ping_events]. now rewrite Hs, IH.
Qed.

(** When every promise settles, and settles as [wire] says, the hook
    with promises that may stay pending is the hook of the monad [M]. *)
Lemma async_agrees_when_promises_settle (args : Args) (w : World) :
  settles_as_wire net w ->
  Async.onSuccess net path_join args w
  = Async.lift (onSuccess path_join args) w.
Proof.
  intros Hs. unfold Async.lift.
  assert (Hn : forall u checks,
            Async.notify net u (extend w checks)
            = match notify u (extend w checks) with
              | (inr a, w') => (Async.Returned a, w')
              | (inl e, w') => (Async.Thrown e, w')
              end).
  { intros u checks.
    destruct (encodeURIComponent u) as [err|e] eqn:He.
    - now rewrite (async_notify_throw _ err _ He), (notify_throw _ err _ He).
    - rewrite (async_notify_run _ e _ He), (notify_run _ e _ He).
      now rewrite (ping_trace_settled (extend w checks)). }
  destruct (truthy (Some (resolve_siteUrl (inputs args) (env_URL w)))) eqn:H.
  - destruct (disk w (path_join (PUBLISH_DIR (constants args))
                                (resolve_sitemapPath (inputs args)))) eqn:Hd.
    + rewrite (async_present args w H Hd), (onSuccess_present _ args w H Hd).
      apply Hn.
    + destruct (find (fun alt => disk w (path_join (PUBLISH_DIR (constants args)) alt))
                  alternatives) as [found|] eqn:Hf.
      * rewrite (async_fallback args w found H Hd Hf).
        rewrite (onSuccess_fallback _ args w found H Hd Hf). apply Hn.
      * rewrite (async_missing args w H Hd Hf).
        now rewrite (onSuccess_missing _ args w H Hd Hf).
  - rewrite (async_unresolved args w H).
    now rewrite (onSuccess_unresolved _ args w H).
Qed.

End AsyncRuns.


Section AsyncClaims.

Variable net : nat -> jsstring -> list Callbacks.NodeEvent.

(** C7, as amended. For a target whose promise settles, the loop body
    sends one request and prints exactly one line: the check mark and
    the target's name when the status is below 300, the warning sign,
    the status and the name when it is 300 or more, and the cross, the
    name and the error's message when the promise is rejected. For a
    target whose promise never settles it sends the request, prints no
    line, and the hook waits there. *)
Theorem ping_prints_one_line_when_the_promise_settles (target : Target)
  (w : World) :
  (forall res,
     Callbacks.httpGet (net (sent w) (url target)) = Some (Fulfilled res) ->
     status res < 300 ->
     Async.ping net target w =
     (Async.Returned tt,
      extend w [Get (url target);
                Print (lit "   " ++ check_mark ++ lit " " ++ name target)])) /\
  (forall res,
     Callbacks.httpGet (net (sent w) (url target)) = Some (Fulfilled res) ->
     300 <= status res ->
     Async.ping net target w =
     (Async.Returned tt,
      extend w [Get (url target);
                Print (lit "   " ++ warning_sign ++ lit "  " ++
                       number_to_string (status res) ++ lit " " ++
                       name target)])) /\
  (forall err,
     Callbacks.httpGet (net (sent w) (url target)) = Some (Rejected err) ->
     Async.ping net target w =
     (Async.Returned tt,
      extend w [Get (url target);
                Print (lit "   " ++ cross_mark ++ lit " " ++ name target ++
                       lit ": " ++ message err)])) /\
  (Callbacks.httpGet (net (sent w) (url target)) = None ->
   Async.ping net target w = (Async.Waiting, extend w [Get (url target)])).
Proof.
  rewrite async_ping_run. split; [|split; [|split]].
  - intros res -> Hlt. unfold ping_line.
    apply N.ltb_lt in Hlt. now rewrite Hlt.
  - intros res -> Hge. unfold ping_line.
    apply N.ltb_ge in Hge. rewrite Hge. now rewrite <- !app_assoc.
  - intros err ->. reflexivity.
  - intros ->. reflexivity.
Qed.

Variable path_join : jsstring -> jsstring -> jsstring.

Lemma async_checks_of_a_run (args : Args) (w : World) :
  truthy (Some (resolve_siteUrl (inputs args) (env_URL w))) = true ->
  exists checks,
    requests checks = [] /\
    (List.length (probes checks) <= 4)%nat /\
    ((disk w (path_join (PUBLISH_DIR (constants args))
                        (resolve_sitemapPath (inputs args))) = false /\
      (forall alt, In alt alternatives ->
         disk w (path_join (PUBLISH_DIR (constants args)) alt) = false) /\
      Async.onSuccess net path_join args w =
      (Async.Returned tt,
       extend w (checks ++
                 [Print (no_sitemap_warning
                           (resolve_sitemapPath (inputs args)))])))
     \/
     ((disk w (path_join (PUBLISH_DIR (constants args))
                         (resolve_sitemapPath (inputs args))) = true \/
       exists alt, In alt alternatives /\
         disk w (path_join (PUBLISH_DIR (constants args)) alt) = true) /\
      Async.onSuccess net path_join args w =
      Async.notify net
        (resolve_siteUrl (inputs args) (env_URL w) ++
         resolve_sitemapPath (inputs args))
        (extend w checks))).
Proof.
  intros H.
  set (dir := PUBLISH_DIR (constants args)).
  set (path := resolve_sitemapPath (inputs args)).
  set (probed := probed_until_hit (disk w) (map (path_join dir) alternatives)).
  assert (Hlen : (List.length probed <= 3)%nat).
  { unfold probed.
    pose proof (probed_until_hit_length (disk w)
                  (map (path_join dir) alternatives)) as Hlen.
    now rewrite length_map in Hlen. }
  destruct (disk w (path_join dir path)) eqn:Hd.
  - exists [Probe (path_join dir path)].
    split; [reflexivity|]. split; [simpl; lia|].
    right. split; [now left|]. now apply async_present.
  - destruct (find (fun alt => disk w (path_join dir alt)) alternatives)
      as [found|] eqn:Hf.
    + exists (Probe (path_join dir path) :: map Probe probed ++
              [Print (fallback_notice path found)]).
      split; [apply requests_checks|].
      split; [rewrite probes_checks; cbn [List.length]; lia|].
      right. split.
      * right. destruct (find_some _ _ Hf) as [Hin Ht].
        exists found. split; [exact Hin|exact Ht].
      * now apply async_fallback.
    + exists (Probe (path_join dir path) :: map Probe probed).
      split; [apply requests_map_Probe|].
      split.
      { change (probes (Probe (path_join dir path) :: map Probe probed))
          with (path_join dir path :: probes (map Probe probed)).
        rewrite probes_map_Probe. cbn [List.length]. lia. }
      left. split; [reflexivity|]. split.
      * intros alt Hin. now apply (find_none _ _ Hf).
      * rewrite <- app_comm_cons. now apply async_missing.
Qed.

(** C8, as amended. Once the sitemap is found: when
    [encodeURIComponent] accepts the sitemap URL and the promises of the
    three requests settle, in whatever way, the run sends the three
    requests in order, prints the line of each outcome after each, then
    the completion line, and returns without throwing; when
    [encodeURIComponent] throws, the hook throws that [URIError] after
    the sitemap line, before any request. *)
Theorem every_target_is_processed_when_promises_settle (args : Args)
  (w : World) :
  resolve_siteUrl (inputs args) (env_URL w) <> [] ->
  (disk w (path_join (PUBLISH_DIR (constants args))
                     (resolve_sitemapPath (inputs args))) = true \/
   exists alt, In alt alternatives /\
     disk w (path_join (PUBLISH_DIR (constants args)) alt) = true) ->
  (forall e p1 p2 p3,
     encodeURIComponent (resolve_siteUrl (inputs args) (env_URL w) ++
                         resolve_sitemapPath (inputs args)) = inr e ->
     let google := {| name := lit "Google"; url := google_ping ++ e |} in
     let bing := {| name := lit "Bing (IndexNow)"; url := bing_ping ++ e |} in
     let yandex := {| name := lit "Yandex"; url := yandex_ping ++ e |} in
     Callbacks.httpGet (net (sent w) (url google)) = Some p1 ->
     Callbacks.httpGet (net (S (sent w)) (url bing)) = Some p2 ->
     Callbacks.httpGet (net (S (S (sent w))) (url yandex)) = Some p3 ->
     exists before,
       Async.onSuccess net path_join args w =
       (Async.Returned tt,
        extend w (before ++
                  [Print banner;
                   Print (sitemap_line
                            (resolve_siteUrl (inputs args) (env_URL w) ++
                             resolve_sitemapPath (inputs args)));
                   Get (url google); Print (ping_line google p1);
                   Get (url bing); Print (ping_line bing p2);
                   Get (url yandex); Print (ping_line yandex p3);
                   Print done_line])) /\
       requests before = []) /\
  (forall err,
     encodeURIComponent (resolve_siteUrl (inputs args) (env_URL w) ++
                         resolve_sitemapPath (inputs args)) = inl err ->
     exists before,
       Async.onSuccess net path_join args w =
       (Async.Thrown URIError,
        extend w (before ++
                  [Print banner;
                   Print (sitemap_line
                            (resolve_siteUrl (inputs args) (env_URL w) ++
                             resolve_sitemapPath (inputs args)))])) /\
       requests before = []).
Proof.
  intros H Hfound. apply truthy_nonempty in H.
  destruct (async_checks_of_a_run args w H)
    as (checks & Hreq & _ & [(Hd & Hnone & _)|(_ & E)]).
  { exfalso. destruct Hfound as [Hd'|(alt & Hin & Halt)].
    - rewrite Hd in Hd'. discriminate.
    - rewrite (Hnone alt Hin) in Halt. discriminate. }
  assert (Hsent : sent (extend w checks) = sent w).
  { rewrite sent_extend, Hreq. simpl. lia. }
  split.
  - intros e p1 p2 p3 He google bing yandex H1 H2 H3.
    exists checks. split; [|exact Hreq].
    rewrite E, (async_notify_run net _ e _ He), Hsent.
    unfold target_list. fold google. fold bing. fold yandex.
    cbn [ping_trace]. rewrite H1, H2, H3. cbn [fst snd].
    rewrite extend_extend. reflexivity.
  - intros err He. exists checks. split; [|exact Hreq].
    rewrite E, (async_notify_throw net _ err _ He), extend_extend.
    now rewrite (encodeURIComponent_error _ _ He).
Qed.

(** C6, as amended. With [siteUrl = "https://example.com/"], no
    [sitemapPath] input, and [sitemap-index.xml] in the publish
    directory, the run sends exactly three requests, to Google, then
    Bing, then Yandex, each with the percent-encoded sitemap URL as the
    [sitemap] parameter, when the promises of the first two requests
    settle; it returns when the promise of the third settles too. *)
Theorem example_com_pings_when_promises_settle (dir : jsstring) (w : World)
  (p1 p2 : Settled) :
  disk w (path_join dir (lit "/sitemap-index.xml")) = true ->
  Callbacks.httpGet
    (net (sent w)
       (lit "https://www.google.com/ping?sitemap=https%3A%2F%2Fexample.com%2Fsitemap-index.xml"))
  = Some p1 ->
  Callbacks.httpGet
    (net (S (sent w))
       (lit "https://www.bing.com/ping?sitemap=https%3A%2F%2Fexample.com%2Fsitemap-index.xml"))
  = Some p2 ->
  exists o evs,
    Async.onSuccess net path_join
      {| constants := {| PUBLISH_DIR := dir |};
         inputs := {| siteUrl := Some (lit "https://example.com/");
                      sitemapPath := None |} |} w
    = (o, extend w evs) /\
    requests evs =
    [lit "https://www.google.com/ping?sitemap=https%3A%2F%2Fexample.com%2Fsitemap-index.xml";
     lit "https://www.bing.com/ping?sitemap=https%3A%2F%2Fexample.com%2Fsitemap-index.xml";
     lit "https://yandex.com/ping?sitemap=https%3A%2F%2Fexample.com%2Fsitemap-index.xml"] /\
    (forall p3,
       Callbacks.httpGet
         (net (S (S (sent w)))
            (lit "https://yandex.com/ping?sitemap=https%3A%2F%2Fexample.com%2Fsitemap-index.xml"))
       = Some p3 ->
       o = Async.Returned tt).
Proof.
  intros Hd H1 H2.
  rewrite async_present; [|reflexivity|exact Hd].
  rewrite (async_notify_run net _
             (lit "https%3A%2F%2Fexample.com%2Fsitemap-index.xml"));
    [|reflexivity].
  rewrite sent_extend. cbn [requests List.length]. rewrite Nat.add_0_r.
  unfold target_list. cbn [ping_trace url].
  change (google_ping ++ lit "https%3A%2F%2Fexample.com%2Fsitemap-index.xml")
    with (lit "https://www.google.com/ping?sitemap=https%3A%2F%2Fexample.com%2Fsitemap-index.xml").
  change (bing_ping ++ lit "https%3A%2F%2Fexample.com%2Fsitemap-index.xml")
    with (lit "https://www.bing.com/ping?sitemap=https%3A%2F%2Fexample.com%2Fsitemap-index.xml").
  change (yandex_ping ++ lit "https%3A%2F%2Fexample.com%2Fsitemap-index.xml")
    with (lit "https://yandex.com/ping?sitemap=https%3A%2F%2Fexample.com%2Fsitemap-index.xml").
  rewrite H1, H2.
  destruct (Callbacks.httpGet
              (net (S (S (sent w)))
                 (lit "https://yandex.com/ping?sitemap=https%3A%2F%2Fexample.com%2Fsitemap-index.xml")))
    as [p3|]; cbn [fst snd]; rewrite extend_extend;
    eexists; eexists; (split; [reflexivity|]); (split; [reflexivity|]).
  - reflexivity.
  - intros p3 Hp3. discriminate.
Qed.


End AsyncClaims.

Lemma ping_prints_one_line_when_the_promise_settles_witness :
  Callbacks.httpGet (net_mixed 0 (url google_x))
  = Some (Fulfilled {| status := 200; body := lit "ok" |}) /\
  status {| status := 200; body := lit "ok" |} < 300 /\
  Async.ping net_mixed google_x (start (fun _ => true) mixed_net None)
  = (Async.Returned tt,
     extend (start (fun _ => true) mixed_net None)
       [Get (url google_x); Print (lit "   " ++ check_mark ++ lit " Google")]) /\
  Callbacks.httpGet (net_mixed 1 (url google_x)) = Some (answers 404) /\
  300 <= status {| status := 404; body := [] |} /\
  Async.ping net_mixed google_x
    (extend (start (fun _ => true) mixed_net None) [Get (lit "a")])
  = (Async.Returned tt,
     extend (extend (start (fun _ => true) mixed_net None) [Get (lit "a")])
       [Get (url google_x);
        Print (lit "   " ++ warning_sign ++ lit "  404 Google")]) /\
  Callbacks.httpGet (net_mixed 2 (url google_x)) = Some refused /\
  Async.ping net_mixed google_x
    (extend (start (fun _ => true) mixed_net None) [Get (lit "a"); Get (lit "b")])
  = (Async.Returned tt,
     extend (extend (start (fun _ => true) mixed_net None)
               [Get (lit "a"); Get (lit "b")])
       [Get (url google_x);
        Print (lit "   " ++ cross_mark ++ lit " Google: connect ECONNREFUSED")]) /\
  Callbacks.httpGet (net_cut 0 (url google_x)) = None /\
  Async.ping net_cut google_x (start (fun _ => true) mixed_net None)
  = (Async.Waiting,
     extend (start (fun _ => true) mixed_net None) [Get (url google_x)]).
Proof.
  split; [reflexivity|]. split; [reflexivity|].
  split.
  { apply (proj1 (ping_prints_one_line_when_the_promise_settles net_mixed
                    google_x (start (fun _ => true) mixed_net None))
             {| status := 200; body := lit "ok" |});
      reflexivity. }
  split; [reflexivity|]. split; [discriminate|].
  split.
  { apply (proj1 (proj2 (ping_prints_one_line_when_the_promise_settles
                    net_mixed google_x
                    (extend (start (fun _ => true) mixed_net None)
                       [Get (lit "a")])))
             {| status := 404; body := [] |});
      [reflexivity|discriminate]. }
  split; [reflexivity|].
  split.
  { apply (proj1 (proj2 (proj2 (ping_prints_one_line_when_the_promise_settles
                    net_mixed google_x
                    (extend (start (fun _ => true) mixed_net None)
                       [Get (lit "a"); Get (lit "b")]))))
             {| message := lit "connect ECONNREFUSED" |}).
    reflexivity. }
  split; [reflexivity|].
  apply (proj2 (proj2 (proj2 (ping_prints_one_line_when_the_promise_settles
                  net_cut google_x (start (fun _ => true) mixed_net None))))).
  reflexivity.
Defined.

(** C7, as stated, fails: a response that is cut after its headers and
    a first chunk is a failure of the transport, but the response never
    ends and the request emits no error, so the promise stays pending:
    the target's request is sent and no line is printed for it. *)
Lemma cut_response_prints_no_line :
  Callbacks.httpGet (net_cut 0 (url google_x)) = None /\
  Async.ping net_cut google_x (start (fun _ => true) mixed_net None)
  = (Async.Waiting,
     extend (start (fun _ => true) mixed_net None) [Get (url google_x)]) /\
  prints (trace (snd (Async.ping net_cut google_x
                        (start (fun _ => true) mixed_net None)))) = [].
Proof. repeat split. Qed.

Lemma every_target_is_processed_when_promises_settle_witness :
  resolve_siteUrl (inputs (args_of (Some (lit "https://example.com")) None))
    (env_URL (start (fun _ => true) mixed_net None)) <> [] /\
  disk (start (fun _ => true) mixed_net None)
       (join_plain dist (lit "/sitemap-index.xml")) = true /\
  encodeURIComponent (lit "https://example.com/sitemap-index.xml")
  = inr (lit "https%3A%2F%2Fexample.com%2Fsitemap-index.xml") /\
  Callbacks.httpGet
    (net_mixed 0 (lit "https://www.google.com/ping?sitemap=https%3A%2F%2Fexample.com%2Fsitemap-index.xml"))
  = Some (Fulfilled {| status := 200; body := lit "ok" |}) /\
  Callbacks.httpGet
    (net_mixed 1 (lit "https://www.bing.com/ping?sitemap=https%3A%2F%2Fexample.com%2Fsitemap-index.xml"))
  = Some (answers 404) /\
  Callbacks.httpGet
    (net_mixed 2 (lit "https://yandex.com/ping?sitemap=https%3A%2F%2Fexample.com%2Fsitemap-index.xml"))
  = Some refused /\
  exists before,
    Async.onSuccess net_mixed join_plain
      (args_of (Some (lit "https://example.com")) None)
      (start (fun _ => true) mixed_net None)
    = (Async.Returned tt,
       extend (start (fun _ => true) mixed_net None)
         (before ++
          [Print banner;
           Print (sitemap_line (lit "https://example.com/sitemap-index.xml"));
           Get (lit "https://www.google.com/ping?sitemap=https%3A%2F%2Fexample.com%2Fsitemap-index.xml");
           Print (lit "   " ++ check_mark ++ lit " Google");
           Get (lit "https://www.bing.com/ping?sitemap=https%3A%2F%2Fexample.com%2Fsitemap-index.xml");
           Print (lit "   " ++ warning_sign ++ lit "  404 Bing (IndexNow)");
           Get (lit "https://yandex.com/ping?sitemap=https%3A%2F%2Fexample.com%2Fsitemap-index.xml");
           Print (lit "   " ++ cross_mark ++ lit " Yandex: connect ECONNREFUSED");
           Print done_line])) /\
    requests before = [].
Proof.
  split; [discriminate|]. split; [reflexivity|]. split; [reflexivity|].
  split; [reflexivity|]. split; [reflexivity|]. split; [reflexivity|].
  apply (proj1 (every_target_is_processed_when_promises_settle net_mixed
                  join_plain (args_of (Some (lit "https://example.com")) None)
                  (start (fun _ => true) mixed_net None)
                  ltac:(discriminate) (or_introl eq_refl))
           (lit "https%3A%2F%2Fexample.com%2Fsitemap-index.xml")
           (Fulfilled {| status := 200; body := lit "ok" |})
           (answers 404) refused);
    reflexivity.
Defined.

(** C8, as stated, fails in two ways. A response that is cut after its
    headers leaves its promise pending: the run below answers Google,
    sends the request to Bing, and stops there for good, with no request
    to Yandex, no completion line and no return. And a sitemap URL with
    an unpaired surrogate makes [encodeURIComponent] throw in phase 3:
    the hook throws [URIError]. *)
Lemma cut_response_stops_the_run :
  Async.onSuccess net_cut_after_one join_plain
    (args_of (Some (lit "https://example.com")) None)
    (start (fun _ => true) mixed_net None)
  = (Async.Waiting,
     extend (start (fun _ => true) mixed_net None)
       [Probe (lit "/opt/build/repo/dist/sitemap-index.xml");
        Print banner;
        Print (sitemap_line (lit "https://example.com/sitemap-index.xml"));
        Get (lit "https://www.google.com/ping?sitemap=https%3A%2F%2Fexample.com%2Fsitemap-index.xml");
        Print (lit "   " ++ check_mark ++ lit " Google");
        Get (lit "https://www.bing.com/ping?sitemap=https%3A%2F%2Fexample.com%2Fsitemap-index.xml")]) /\
  Async.onSuccess net_mixed join_plain
    (args_of (Some (lit "https://example.com/" ++ [0xD83D])) None)
    (start (fun _ => true) mixed_net None)
  = (Async.Thrown URIError,
     extend (start (fun _ => true) mixed_net None)
       [Probe (lit "/opt/build/repo/dist/sitemap-index.xml");
        Print banner;
        Print (sitemap_line (lit "https://example.com/" ++ [0xD83D] ++
                             lit "/sitemap-index.xml"))]).
Proof. split; reflexivity. Qed.

Lemma example_com_pings_when_promises_settle_witness :
  disk (start (only_file (lit "/opt/build/repo/dist/sitemap-index.xml"))
          mixed_net None)
       (join_plain dist (lit "/sitemap-index.xml")) = true /\
  Callbacks.httpGet
    (net_mixed 0 (lit "https://www.google.com/ping?sitemap=https%3A%2F%2Fexample.com%2Fsitemap-index.xml"))
  = Some (Fulfilled {| status := 200; body := lit "ok" |}) /\
  Callbacks.httpGet
    (net_mixed 1 (lit "https://www.bing.com/ping?sitemap=https%3A%2F%2Fexample.com%2Fsitemap-index.xml"))
  = Some (answers 404) /\
  exists o evs,
    Async.onSuccess net_mixed join_plain
      (args_of (Some (lit "https://example.com/")) None)
      (start (only_file (lit "/opt/build/repo/dist/sitemap-index.xml"))
         mixed_net None)
    = (o, extend (start (only_file (lit "/opt/build/repo/dist/sitemap-index.xml"))
                    mixed_net None) evs) /\
    requests evs =
    [lit "https://www.google.com/ping?sitemap=https%3A%2F%2Fexample.com%2Fsitemap-index.xml";
     lit "https://www.bing.com/ping?sitemap=https%3A%2F%2Fexample.com%2Fsitemap-index.xml";
     lit "https://yandex.com/ping?sitemap=https%3A%2F%2Fexample.com%2Fsitemap-index.xml"] /\
    (forall p3,
       Callbacks.httpGet
         (net_mixed 2
            (lit "https://yandex.com/ping?sitemap=https%3A%2F%2Fexample.com%2Fsitemap-index.xml"))
       = Some p3 ->
       o = Async.Returned tt).
Proof.
  split; [reflexivity|]. split; [reflexivity|]. split; [reflexivity|].
  apply (example_com_pings_when_promises_settle net_mixed join_plain dist
           (start (only_file (lit "/opt/build/repo/dist/sitemap-index.xml"))
              mixed_net None)
           (Fulfilled {| status := 200; body := lit "ok" |}) (answers 404));
    reflexivity.
Defined.

(** C6, as stated, fails: when the response to the first request is cut
    after its headers, the run sends the request to Google and no
    other. *)
Lemma example_com_one_request_when_cut :
  disk (start (only_file (lit "/opt/build/repo/dist/sitemap-index.xml"))
          mixed_net None)
       (join_plain dist (lit "/sitemap-index.xml")) = true /\
  Async.onSuccess net_cut join_plain
    (args_of (Some (lit "https://example.com/")) None)
    (start (only_file (lit "/opt/build/repo/dist/sitemap-index.xml"))
       mixed_net None)
  = (Async.Waiting,
     extend (start (only_file (lit "/opt/build/repo/dist/sitemap-index.xml"))
               mixed_net None)
       [Probe (lit "/opt/build/repo/dist/sitemap-index.xml");
        Print banner;
        Print (sitemap_line (lit "https://example.com/sitemap-index.xml"));
        Get (lit "https://www.google.com/ping?sitemap=https%3A%2F%2Fexample.com%2Fsitemap-index.xml")]) /\
  requests
    (trace (snd (Async.onSuccess net_cut join_plain
                   (args_of (Some (lit "https://example.com/")) None)
                   (start (only_file (lit "/opt/build/repo/dist/sitemap-index.xml"))
                      mixed_net None))))
  = [lit "https://www.google.com/ping?sitemap=https%3A%2F%2Fexample.com%2Fsitemap-index.xml"].
Proof. repeat split. Qed.

(* ===================================================================== *)
(** * More example runs *)
(* ===================================================================== *)

Example number_0 : number_to_string 0 = lit "0".
Proof. reflexivity. Qed.

Example number_301 : number_to_string 301 = lit "301".
Proof. reflexivity. Qed.

Example number_503 : number_to_string 503 = lit "503".
Proof. reflexivity. Qed.

(** An explicit [sitemapPath] is the path that is checked and pinged. *)
Example explicit_sitemap_path_run :
  onSuccess join_plain
    (args_of (Some (lit "https://example.com")) (Some (lit "/sitemap.xml")))
    (start (fun _ => true) (fun _ _ => answers 503) None)
  = (inr tt,
     extend (start (fun _ => true) (fun _ _ => answers 503) None)
       [Probe (lit "/opt/build/repo/dist/sitemap.xml");
        Print banner;
        Print (lit "   Sitemap: https://example.com/sitemap.xml" ++ nl);
        Get (lit "https://www.google.com/ping?sitemap=https%3A%2F%2Fexample.com%2Fsitemap.xml");
        Print (lit "   " ++ warning_sign ++ lit "  503 Google");
        Get (lit "https://www.bing.com/ping?sitemap=https%3A%2F%2Fexample.com%2Fsitemap.xml");
        Print (lit "   " ++ warning_sign ++ lit "  503 Bing (IndexNow)");
        Get (lit "https://yandex.com/ping?sitemap=https%3A%2F%2Fexample.com%2Fsitemap.xml");
        Print (lit "   " ++ warning_sign ++ lit "  503 Yandex");
        Print done_line]).
Proof. reflexivity. Qed.

(** The three outcomes of [mixed_outcomes_run], from the events Node
    delivers. *)
Example mixed_outcomes_from_events :
  Async.onSuccess net_mixed join_plain
    (args_of (Some (lit "https://example.com/")) None)
    (start (fun _ => true) mixed_net None)
  = (Async.Returned tt,
     snd (onSuccess join_plain
            (args_of (Some (lit "https://example.com/")) None)
            (start (fun _ => true) mixed_net None))).
Proof. reflexivity. Qed.
